(** * pythie_serving.utils: tensor encoding, decoding and sample assembly

    A shallow embedding of [src/pythie_serving/utils.py]:
    the type registry ([_TF_TO_NP], [_NP_TO_TF], [get_tf_type], [get_np_dtype]),
    the encoder [make_tensor_proto], the decoder [make_ndarray_from_tensor]
    and the sample assembler [parse_sample] with its three validators.

    numpy arrays are modelled as a record of element type, shape and flat
    row-major data; fixed-width numbers are integers ([Z]) with their
    wrap-around written out, floating-point numbers are their IEEE 754 bit
    patterns, byte buffers are [list byte]; Python exceptions are the error
    side of a result type. *)

From Stdlib Require Import ZArith Lia List.
From Stdlib.Strings Require Import Byte String.
From stdpp Require Import base option list gmap strings.
Import ListNotations.

Local Open Scope Z_scope.

(** ** Little-endian byte strings *)

Module LE.

Definition Z_of_byte (b : byte) : Z := Z.of_N (Byte.to_N b).

Definition byte_of_Z (z : Z) : byte :=
  match Byte.of_N (Z.to_N (z mod 256)) with
  | Some b => b
  | None => x00
  end.

(** The [n] low bytes of [v], least significant first; a negative [v]
    comes out in two's complement. *)
Fixpoint encode (n : nat) (v : Z) : list byte :=
  match n with
  | O => []
  | S k => byte_of_Z v :: encode k (v / 256)
  end.

Fixpoint decode (bs : list byte) : Z :=
  match bs with
  | [] => 0
  | b :: r => Z_of_byte b + 256 * decode r
  end.

Lemma Z_of_byte_range b : 0 <= Z_of_byte b < 256.
Proof.
  unfold Z_of_byte. pose proof (Byte.to_N_bounded b) as H. lia.
Qed.


Lemma byte_of_Z_of_byte b : byte_of_Z (Z_of_byte b) = b.
Proof.
  unfold byte_of_Z, Z_of_byte.
  pose proof (Byte.to_N_bounded b) as H.
  rewrite Z.mod_small by lia. rewrite N2Z.id.
  now rewrite Byte.of_to_N.
Qed.

Lemma length_encode n v : length (encode n v) = n.
Proof. revert v. induction n as [|n IH]; intros v; simpl; [reflexivity|]. now rewrite IH. Qed.

Lemma decode_range bs : 0 <= decode bs < 256 ^ Z.of_nat (length bs).
Proof.
  induction bs as [|b r IH].
  - simpl. lia.
  - cbn [decode length]. rewrite Nat2Z.inj_succ, Z.pow_succ_r by lia.
    pose proof (Z_of_byte_range b). lia.
Qed.


Lemma encode_decode bs : encode (length bs) (decode bs) = bs.
Proof.
  induction bs as [|b r IH]; [reflexivity|].
  cbn [length encode decode].
  pose proof (Z_of_byte_range b) as Hb.
  f_equal.
  - replace (Z_of_byte b + 256 * decode r) with (Z_of_byte b + decode r * 256) by lia.
    transitivity (byte_of_Z (Z_of_byte b)); [|apply byte_of_Z_of_byte].
    unfold byte_of_Z. now rewrite Z.mod_add by lia.
  - replace (Z_of_byte b + 256 * decode r) with (Z_of_byte b + decode r * 256) by lia.
    rewrite Z.div_add by lia. rewrite Z.div_small by lia. simpl. exact IH.
Qed.

End LE.

(** ** Python exceptions and the error monad *)

(** The exceptions the module and the numpy calls it makes can raise.  The
    first four are the [TypeError]s of [get_tf_type], [get_np_dtype],
    [make_tensor_proto] and [make_ndarray_from_tensor]; the names are the
    error kinds of the specification. *)
Inductive exn : Type :=
| UnknownNativeType       (* TypeError "Could not infer tensorflow type for ..." *)
| UnknownLogicalType      (* TypeError "Could not infer numpy type for ..." *)
| InvalidStringElement    (* TypeError "... expect a list of bytes when working with DT_STRING types" *)
| UnsupportedEncoding     (* TypeError "Unsupported tensor type: ..." *)
| NotIterable             (* TypeError raised by Python when iterating a 0-d array or an int *)
| ValueError_frombuffer   (* np.frombuffer: object dtype, or size not a multiple of the item size *)
| ValueError_reshape      (* ndarray.reshape: sizes do not agree *)
| ValueError_negative_dim (* np.zeros, np.empty: negative dimensions *)
| ValueError_pad          (* np.pad: negative pad width, or edge-padding an empty axis *)
| ValueError_setitem      (* item assignment: value not convertible *)
| ValueError_broadcast    (* item assignment: shapes cannot be broadcast together *)
| IndexError              (* sequence or array index out of range *)
| KeyError                (* dict lookup of an absent key *)
| PythieServingException (msg : string).

Inductive result (A : Type) : Type :=
| Ok (a : A)
| Raise (e : exn).
Arguments Ok {A} a.
Arguments Raise {A} e.

Definition bind {A B} (r : result A) (k : A -> result B) : result B :=
  match r with
  | Ok a => k a
  | Raise e => Raise e
  end.

Notation "x <- r ;; k" := (bind r (fun x => k))
  (at level 100, r at next level, right associativity).

Definition is_ok {A} (r : result A) : bool :=
  match r with Ok _ => true | Raise _ => false end.

(** ** numpy model *)

(** Scalar types.  [py_object] is Python's builtin [object], which the
    registry table uses for strings; [object_] is [numpy.object_], the
    [.type] of an object array's dtype.  A dtype is represented by its
    [.type]. *)
Inductive np_type : Type :=
| float16 | float32 | float64
| int8 | int16 | int32 | int64
| uint8 | uint16 | uint32 | uint64
| complex64 | complex128
| bool_
| py_object | object_ | bytes_ | str_.

Global Instance np_type_eq_dec : EqDecision np_type.
Proof. solve_decision. Defined.

Definition np_type_eqb (a b : np_type) : bool := bool_decide (a = b).

(** [np.dtype(t)] for a scalar type [t]. *)
Definition np_dtype (t : np_type) : np_type :=
  match t with
  | py_object => object_
  | _ => t
  end.

(** Item size in bytes of the fixed-width element types. *)
Definition itemsize (t : np_type) : option nat :=
  match t with
  | float16 | int16 | uint16 => Some 2%nat
  | float32 | int32 | uint32 => Some 4%nat
  | float64 | int64 | uint64 | complex64 => Some 8%nat
  | complex128 => Some 16%nat
  | int8 | uint8 | bool_ => Some 1%nat
  | py_object | object_ | bytes_ | str_ => None
  end.

Definition is_signed (t : np_type) : bool :=
  match t with
  | int8 | int16 | int32 | int64 => true
  | _ => false
  end.

(** Array elements.  [Num z] is a fixed-width element: the value of an
    integer, the IEEE 754 bit pattern of a floating-point or complex
    number, the stored byte of a boolean.  The other three are the Python
    objects an object, bytes or str array yields on indexing. *)
Inductive item : Type :=
| Num (z : Z)
| PyBytes (s : list byte)
| PyStr (s : string)
| PyInt (z : Z).

Global Instance byte_eq_dec : EqDecision byte := Byte.byte_eq_dec.

Global Instance item_eq_dec : EqDecision item.
Proof. solve_decision. Defined.

(** An array: element type, shape, flat data in row-major order, and
    numpy's [.base]: the buffer object the array is a view of, [None]
    when it owns its data. *)
Record ndarray : Type := mk_ndarray {
  dtype : np_type;
  shape : list Z;
  data : list item;
  base : option (list byte)
}.

Definition size (a : ndarray) : Z := Z.of_nat (length (data a)).

Definition prod (dims : list Z) : Z := fold_right Z.mul 1 dims.

(** Two's complement reading of a [bits]-bit pattern. *)
Definition to_signed (bits : Z) (u : Z) : Z :=
  if u <? 2 ^ (bits - 1) then u else u - 2 ^ bits.

(** The C cast to a signed integer of [bits] bits. *)
Definition wrap_signed (bits : Z) (v : Z) : Z := to_signed bits (v mod 2 ^ bits).

Definition item_bytes (n : nat) (x : item) : list byte :=
  match x with
  | Num z => LE.encode n z
  | _ => LE.encode n 0
  end.

Definition item_of_bytes (t : np_type) (bs : list byte) : item :=
  let u := LE.decode bs in
  Num (if is_signed t then to_signed (8 * Z.of_nat (length bs)) u else u).

(** [ndarray.tobytes()] of a fixed-width array. *)
Definition tobytes (a : ndarray) : list byte :=
  match itemsize (dtype a) with
  | Some n => flat_map (item_bytes n) (data a)
  | None => []
  end.

(** [l] cut into consecutive pieces of [n] elements; [fuel] bounds the
    number of pieces. *)
Fixpoint chunks {A} (fuel : nat) (n : nat) (l : list A) : list (list A) :=
  match fuel with
  | O => []
  | S f =>
      match l with
      | [] => []
      | _ => take n l :: chunks f n (drop n l)
      end
  end.

(** [np.frombuffer(buf, dtype)]: a one-dimensional view of [buf]. *)
Definition frombuffer (buf : list byte) (t : np_type) : result ndarray :=
  match itemsize t with
  | None => Raise ValueError_frombuffer
  | Some n =>
      if (Z.of_nat (length buf) mod Z.of_nat n =? 0)
      then Ok {| dtype := t;
                 shape := [Z.of_nat (length buf) / Z.of_nat n];
                 data := map (item_of_bytes t) (chunks (length buf) n buf);
                 base := Some buf |}
      else Raise ValueError_frombuffer
  end.

(** [ndarray.copy()]: same contents in a buffer of its own. *)
Definition copy (a : ndarray) : ndarray :=
  {| dtype := dtype a; shape := shape a; data := data a; base := None |}.

(** [ndarray.reshape(newshape)]: a view with the same data.  One dimension
    may be [-1], which numpy infers from the size. *)
Definition reshape (a : ndarray) (newshape : list Z) : result ndarray :=
  let n := size a in
  let known := List.filter (fun d => negb (d =? -1)) newshape in
  let unknown := (length newshape - length known)%nat in
  if existsb (fun d => d <? -1) newshape then Raise ValueError_reshape
  else match unknown with
       | O =>
           if prod newshape =? n
           then Ok {| dtype := dtype a; shape := newshape; data := data a; base := base a |}
           else Raise ValueError_reshape
       | S O =>
           let p := prod known in
           if (p =? 0) || negb (n mod p =? 0) then Raise ValueError_reshape
           else Ok {| dtype := dtype a;
                      shape := map (fun d => if d =? -1 then n / p else d) newshape;
                      data := data a; base := base a |}
       | _ => Raise ValueError_reshape
       end.

(** The zero of an element type, as [np.zeros] fills it in. *)
Definition zero_item (t : np_type) : item :=
  match t with
  | py_object | object_ => PyInt 0
  | bytes_ => PyBytes []
  | str_ => PyStr EmptyString
  | _ => Num 0
  end.

(** [np.zeros(shape, dtype)]. *)
Definition zeros (shp : list Z) (t : np_type) : result ndarray :=
  if existsb (fun d => d <? 0) shp then Raise ValueError_negative_dim
  else Ok {| dtype := t; shape := shp;
             data := replicate (Z.to_nat (prod shp)) (zero_item t); base := None |}.

(** [np.fromiter(xs, dtype)] for a list of numbers: a one-dimensional
    array of them.  The protobuf value lists hold 32-bit floats (given here
    by their bit patterns), doubles, 32-bit integers and booleans, which
    the element type chosen for each of them represents exactly. *)
Definition fromiter (xs : list Z) (t : np_type) : ndarray :=
  {| dtype := t; shape := [Z.of_nat (length xs)]; data := map Num xs; base := None |}.

(** [np.array(xs, dtype=object)] for a list of [bytes] objects. *)
Definition array_of_bytes (xs : list (list byte)) (t : np_type) : ndarray :=
  {| dtype := t; shape := [Z.of_nat (length xs)]; data := map PyBytes xs; base := None |}.

(** [np.pad(a, (0, after), "edge")] of a one-dimensional array. *)
Definition pad_edge (a : ndarray) (after : Z) : result ndarray :=
  if after <? 0 then Raise ValueError_pad
  else match last (data a) with
       | None => if after =? 0 then Ok (copy a) else Raise ValueError_pad
       | Some x =>
           Ok {| dtype := dtype a;
                 shape := [size a + after];
                 data := data a ++ replicate (Z.to_nat after) x;
                 base := None |}
       end.

(** [np.prod(shape, dtype=np.int64)]: the product in 64-bit arithmetic. *)
Definition prod_int64 (shp : list Z) : Z := wrap_signed 64 (prod shp).

(** *** Conversions between element types *)

(** [x / 2^k] rounded to nearest, ties to even. *)
Definition rne_shift (x k : Z) : Z :=
  if k <=? 0 then x
  else
    let q := Z.shiftr x k in
    let r := Z.land x (Z.ones k) in
    let half := Z.shiftl 1 (k - 1) in
    if (half <? r) || ((r =? half) && Z.odd q) then q + 1 else q.

(** The C cast [(float)d] under IEEE 754 round-to-nearest-even, on bit
    patterns: binary64 in, binary32 out.  A NaN keeps its sign and the top
    of its payload and becomes quiet. *)
Definition float64_to_float32 (b : Z) : Z :=
  let s := Z.land (Z.shiftr b 63) 1 in
  let e := Z.land (Z.shiftr b 52) 2047 in
  let m := Z.land b (Z.ones 52) in
  let sign := s * 2 ^ 31 in
  if e =? 2047 then
    if m =? 0 then sign + 2139095040
    else
      let p := Z.shiftr m 29 in
      sign + 2139095040 + (if Z.testbit p 22 then p else p + 2 ^ 22)
  else
    let e' := e - 896 in
    let r :=
      if 0 <? e' then (e' - 1) * 2 ^ 23 + rne_shift (2 ^ 52 + m) 29
      else if e =? 0 then 0
      else rne_shift (2 ^ 52 + m) (30 - e') in
    sign + Z.min r 2139095040.

Definition map_num (f : Z -> Z) (x : item) : item :=
  match x with
  | Num z => Num (f z)
  | _ => x
  end.

(** [a.astype(np.float32)] of a [float64] array. *)
Definition astype_float32 (a : ndarray) : ndarray :=
  {| dtype := float32; shape := shape a;
     data := map (map_num float64_to_float32) (data a); base := None |}.

(** [a.astype(np.int32)] of an [int64] array: the C cast, which wraps. *)
Definition astype_int32 (a : ndarray) : ndarray :=
  {| dtype := int32; shape := shape a;
     data := map (map_num (wrap_signed 32)) (data a); base := None |}.

(** [np.array_equal(a, b)]: same shape and equal elements. *)
Definition array_equal (a b : ndarray) : bool :=
  bool_decide (shape a = shape b) && bool_decide (data a = data b).

(** *** Iteration *)

(** What a [for] loop over an array, or over one of the objects it
    yields, visits. *)
Inductive pyobj : Type :=
| OBytes (s : list byte)
| OStr (s : string)
| OInt (z : Z)
| OArray (a : ndarray).

Definition obj_of_item (x : item) : pyobj :=
  match x with
  | Num z => OInt z
  | PyBytes s => OBytes s
  | PyStr s => OStr s
  | PyInt z => OInt z
  end.

(** Iterating an array walks its first axis: the scalars of a
    one-dimensional array, sub-arrays otherwise; a 0-d array is not
    iterable. *)
Definition iter_array (a : ndarray) : result (list pyobj) :=
  match shape a with
  | [] => Raise NotIterable
  | [_] => Ok (map obj_of_item (data a))
  | d :: rest =>
      let k := Z.to_nat (prod rest) in
      Ok (map (fun i => OArray {| dtype := dtype a; shape := rest;
                                  data := take k (drop (i * k) (data a));
                                  base := base a |})
              (seq 0 (Z.to_nat d)))
  end.

Fixpoint chars (s : string) : list pyobj :=
  match s with
  | EmptyString => []
  | String c r => OStr (String c EmptyString) :: chars r
  end.

(** Iterating a [bytes] yields its bytes as ints, a [str] its characters. *)
Definition iter_obj (o : pyobj) : result (list pyobj) :=
  match o with
  | OBytes s => Ok (map (fun b => OInt (LE.Z_of_byte b)) s)
  | OStr s => Ok (chars s)
  | OInt _ => Raise NotIterable
  | OArray a => iter_array a
  end.

(** [isinstance(o, bytes)]. *)
Definition isinstance_bytes (o : pyobj) : option (list byte) :=
  match o with
  | OBytes s => Some s
  | _ => None
  end.

(** ** The wire schema *)

Module types_pb2.

(** Modelled from the spec: the [DataType] enumeration of the generated
    protobuf module [tensorflow_proto...types_pb2], which is not part of
    the sources; the specification takes it as a fixed, externally defined
    set of codes.  These are the non-reference codes of TensorFlow's
    [types.proto]. *)
Inductive DataType : Type :=
| DT_INVALID | DT_FLOAT | DT_DOUBLE | DT_INT32 | DT_UINT8 | DT_INT16
| DT_INT8 | DT_STRING | DT_COMPLEX64 | DT_INT64 | DT_BOOL | DT_QINT8
| DT_QUINT8 | DT_QINT32 | DT_BFLOAT16 | DT_QINT16 | DT_QUINT16 | DT_UINT16
| DT_COMPLEX128 | DT_HALF | DT_RESOURCE | DT_VARIANT | DT_UINT32 | DT_UINT64.

End types_pb2.
Export types_pb2.

Global Instance DataType_eq_dec : EqDecision DataType.
Proof. solve_decision. Defined.

Module tensor_pb2.

(** Modelled from the spec: the [TensorProto] message of the generated
    module [tensor_pb2], restricted to the fields the code reads or
    writes.  [tensor_shape] is the list of the [size]s of
    [tensor_shape.dim]; [float_val] holds 32-bit floats by bit pattern,
    [double_val] 64-bit ones, [int_val] 32-bit integers. *)
Record TensorProto : Type := mk_TensorProto {
  dtype : DataType;
  tensor_shape : list Z;
  tensor_content : list byte;
  float_val : list Z;
  double_val : list Z;
  int_val : list Z;
  bool_val : list bool;
  string_val : list (list byte)
}.

End tensor_pb2.
Import tensor_pb2 (TensorProto, mk_TensorProto).

(** ** The type registry *)

(** A Python dict as an association list: the first binding of a key is
    the current one, so an assignment puts its binding in front. *)
Definition dict_get {K V} `{EqDecision K} (d : list (K * V)) (k : K) : option V :=
  snd <$> find (fun kv => bool_decide (fst kv = k)) d.

Definition dict_set {K V} (d : list (K * V)) (k : K) (v : V) : list (K * V) :=
  (k, v) :: d.

Definition _TF_TO_NP : list (DataType * np_type) :=
  [ (DT_HALF, float16);
    (DT_FLOAT, float32);
    (DT_DOUBLE, float64);
    (DT_INT32, int32);
    (DT_UINT8, uint8);
    (DT_UINT16, uint16);
    (DT_UINT32, uint32);
    (DT_UINT64, uint64);
    (DT_INT16, int16);
    (DT_INT8, int8);
    (DT_STRING, py_object);
    (DT_COMPLEX64, complex64);
    (DT_COMPLEX128, complex128);
    (DT_INT64, int64);
    (DT_BOOL, bool_) ].

(** [{nt: tt for tt, nt in _TF_TO_NP.items()}] followed by the two
    assignments for [np.bytes_] and [np.str_]. *)
Definition _NP_TO_TF : list (np_type * DataType) :=
  let inverted := fold_left (fun d kv => dict_set d (snd kv) (fst kv)) _TF_TO_NP [] in
  dict_set (dict_set inverted bytes_ DT_STRING) str_ DT_STRING.

Definition get_tf_type (np_dtype : np_type) : result DataType :=
  match dict_get _NP_TO_TF np_dtype with
  | Some tf => Ok tf
  | None => Raise UnknownNativeType
  end.

Definition get_np_dtype (tf_type : DataType) : result np_type :=
  match dict_get _TF_TO_NP tf_type with
  | Some nt => Ok (np_dtype nt)
  | None => Raise UnknownLogicalType
  end.

(** ** The encoder *)

(** The loop of [make_tensor_proto] over a string array:
    [for vector in np_array: for s in vector: ...]. *)
Fixpoint collect_bytes (ss : list pyobj) (string_val : list (list byte))
  : result (list (list byte)) :=
  match ss with
  | [] => Ok string_val
  | s :: rest =>
      match isinstance_bytes s with
      | None => Raise InvalidStringElement
      | Some b => collect_bytes rest (string_val ++ [b])
      end
  end.

Fixpoint collect_vectors (vectors : list pyobj) (string_val : list (list byte))
  : result (list (list byte)) :=
  match vectors with
  | [] => Ok string_val
  | vector :: rest =>
      ss <- iter_obj vector;;
      string_val' <- collect_bytes ss string_val;;
      collect_vectors rest string_val'
  end.

(** The first statement of [make_tensor_proto] after [np.asarray]: the
    preference for 32-bit floats and integers. *)
Definition prefer_32bit (np_array : ndarray) : ndarray :=
  if bool_decide (dtype np_array = float64) then astype_float32 np_array
  else if bool_decide (dtype np_array = int64) then
    let downcasted_array := astype_int32 np_array in
    if array_equal downcasted_array np_array then downcasted_array else np_array
  else np_array.

(** [make_tensor_proto(values)], on the array [np.asarray(values)]. *)
Definition make_tensor_proto (values : ndarray) : result TensorProto :=
  let np_array := prefer_32bit values in
  dt <- get_tf_type (dtype np_array);;
  let dims := shape np_array in
  if bool_decide (dt = DT_STRING) then
    vectors <- iter_array np_array;;
    string_val <- collect_vectors vectors [];;
    Ok (mk_TensorProto dt dims [] [] [] [] [] string_val)
  else
    Ok (mk_TensorProto dt dims (tobytes np_array) [] [] [] [] []).

(** ** The decoder *)

(** The typed value list [make_ndarray_from_tensor] reads for a type. *)
Definition select_values (tensor : TensorProto) (t : np_type) : result ndarray :=
  match tensor_pb2.dtype tensor with
  | DT_FLOAT => Ok (fromiter (tensor_pb2.float_val tensor) t)
  | DT_DOUBLE => Ok (fromiter (tensor_pb2.double_val tensor) t)
  | DT_INT32 | DT_INT64 => Ok (fromiter (tensor_pb2.int_val tensor) t)
  | DT_BOOL => Ok (fromiter (map Z.b2z (tensor_pb2.bool_val tensor)) t)
  | DT_STRING => Ok (array_of_bytes (tensor_pb2.string_val tensor) t)
  | _ => Raise UnsupportedEncoding
  end.

(** The end of [make_ndarray_from_tensor], from [if values.size == 0] on. *)
Definition pad_and_reshape (values : ndarray) (shape : list Z) (np_dtype : np_type)
  : result ndarray :=
  if size values =? 0 then zeros shape np_dtype
  else
    let num_elements := prod_int64 shape in
    values <- (if negb (size values =? num_elements)
               then pad_edge values (num_elements - size values)
               else Ok values);;
    reshape values shape.

Definition make_ndarray_from_tensor (tensor : TensorProto) : result ndarray :=
  let shape := tensor_pb2.tensor_shape tensor in
  np_dtype <- get_np_dtype (tensor_pb2.dtype tensor);;
  match tensor_pb2.tensor_content tensor with
  | _ :: _ =>
      a <- frombuffer (tensor_pb2.tensor_content tensor) np_dtype;;
      reshape (copy a) shape
  | [] =>
      values <- select_values tensor np_dtype;;
      pad_and_reshape values shape np_dtype
  end.

(** ** The sample assembler *)

Definition missing_feature_msg (feature_name : string) : string :=
  (feature_name ++ " not set in the predict request.")%string.

Definition invalid_length_msg (feature_name : string) : string :=
  (feature_name ++ " has invalid length.")%string.

Definition invalid_shape_msg : string := "All input vectors should be 1D tensor".

(** The three [PythieServingException]s of the validators, under the
    names of the specification's error kinds. *)
Definition MissingFeature (feature_name : string) : exn :=
  PythieServingException (missing_feature_msg feature_name).

Definition InvalidLength (feature_name : string) : exn :=
  PythieServingException (invalid_length_msg feature_name).

Definition InvalidShape : exn := PythieServingException invalid_shape_msg.

(** [request_inputs[feature_name]]. *)
Definition getitem (request_inputs : gmap string TensorProto) (feature_name : string)
  : result TensorProto :=
  match request_inputs !! feature_name with
  | Some t => Ok t
  | None => Raise KeyError
  end.

(** [tensor.tensor_shape.dim[0].size]. *)
Definition dim0_size (tensor : TensorProto) : result Z :=
  match tensor_pb2.tensor_shape tensor with
  | d :: _ => Ok d
  | [] => Raise IndexError
  end.

Definition check_request_feature_exists
  (request_inputs : gmap string TensorProto) (feature_name : string) : result unit :=
  match request_inputs !! feature_name with
  | Some _ => Ok tt
  | None => Raise (MissingFeature feature_name)
  end.

Definition check_request_valid_length
  (request_inputs : gmap string TensorProto) (feature_name : string) (nb_samples : Z)
  : result unit :=
  tensor <- getitem request_inputs feature_name;;
  d <- dim0_size tensor;;
  if negb (d =? nb_samples) then Raise (InvalidLength feature_name) else Ok tt.

Definition check_array_shape (nd_array : ndarray) : result unit :=
  match shape nd_array with
  | [_; d1] => if negb (d1 =? 1) then Raise InvalidShape else Ok tt
  | _ => Raise InvalidShape
  end.

Fixpoint mapM {A B} (f : A -> result B) (l : list A) : result (list B) :=
  match l with
  | [] => Ok []
  | x :: r => y <- f x;; ys <- mapM f r;; Ok (y :: ys)
  end.

Fixpoint forM_ {A} (f : A -> result unit) (l : list A) : result unit :=
  match l with
  | [] => Ok tt
  | x :: r => _ <- f x;; forM_ f r
  end.

(** Cell [(r, j)] of a row-major matrix with [nf] columns. *)
Definition cell (nf r j : nat) : nat := (r * nf + j)%nat.

Fixpoint write_column (nf j r : nat) (vals : list item) (d : list item) : list item :=
  match vals with
  | [] => d
  | v :: vs => write_column nf j (S r) vs (<[cell nf r j := v]> d)
  end.

Definition column (m : ndarray) (j : nat) : list (option item) :=
  match shape m with
  | [ns; nf] => map (fun r => data m !! cell (Z.to_nat nf) r j) (seq 0 (Z.to_nat ns))
  | _ => []
  end.

(** *** Conversion on assignment *)

Definition is_integer_type (t : np_type) : bool :=
  match t with
  | int8 | int16 | int32 | int64 | uint8 | uint16 | uint32 | uint64 | bool_ => true
  | _ => false
  end.

(** The integer an element of an integer or boolean array stands for: a
    boolean counts as 1 when its stored byte is not zero. *)
Definition int_value (src : np_type) (z : Z) : Z :=
  match src with
  | bool_ => if z =? 0 then 0 else 1
  | _ => z
  end.

(** The C cast of an integer to an integer type: it wraps around; to a
    boolean it tests for zero. *)
Definition cast_int (dst : np_type) (z : Z) : Z :=
  match dst with
  | bool_ => if z =? 0 then 0 else 1
  | int8 => wrap_signed 8 z
  | int16 => wrap_signed 16 z
  | int32 => wrap_signed 32 z
  | int64 => wrap_signed 64 z
  | uint8 => z mod 2 ^ 8
  | uint16 => z mod 2 ^ 16
  | uint32 => z mod 2 ^ 32
  | uint64 => z mod 2 ^ 64
  | _ => z
  end.

(** The C cast [(double)z] of an integer, as a binary64 bit pattern:
    exact up to 53 significant bits, rounded to nearest even beyond. *)
Definition float64_of_int (z : Z) : Z :=
  if z =? 0 then 0
  else
    let s := if z <? 0 then 1 else 0 in
    let a := Z.abs z in
    let e := Z.log2 a in
    let frac := if e <=? 52 then Z.shiftl a (52 - e) else rne_shift a (e - 52) in
    s * 2 ^ 63 + (e + 1022) * 2 ^ 52 + frac.

(** The exact conversion to binary64 of a narrower IEEE 754 pattern with
    [ebits] exponent bits and [mbits] fraction bits (binary32: 8 and 23,
    binary16: 5 and 10).  A NaN keeps its sign and payload and becomes
    quiet. *)
Definition widen_to_float64 (ebits mbits b : Z) : Z :=
  let s := Z.land (Z.shiftr b (ebits + mbits)) 1 in
  let e := Z.land (Z.shiftr b mbits) (Z.ones ebits) in
  let m := Z.land b (Z.ones mbits) in
  let bias := 2 ^ (ebits - 1) - 1 in
  let sign := s * 2 ^ 63 in
  if e =? Z.ones ebits then
    if m =? 0 then sign + 2047 * 2 ^ 52
    else
      let p := Z.shiftl m (52 - mbits) in
      sign + 2047 * 2 ^ 52 + (if Z.testbit p 51 then p else p + 2 ^ 51)
  else if e =? 0 then
    if m =? 0 then sign
    else
      let k := Z.log2 m in
      sign + (k + 1 - bias - mbits + 1023) * 2 ^ 52 + (Z.shiftl m (52 - k) - 2 ^ 52)
  else sign + (e - bias + 1023) * 2 ^ 52 + Z.shiftl m (52 - mbits).

(** numpy's conversion of an element of type [src] stored into an array
    of another type [dst], for the pairs modelled here: between integer
    and boolean types, and from integer, boolean, binary16 and binary32
    to [float64], the default type of the sample matrix. *)
Definition cast_item (dst src : np_type) (x : item) : option item :=
  match x with
  | Num z =>
      if is_integer_type src then
        if is_integer_type dst then Some (Num (cast_int dst (int_value src z)))
        else if bool_decide (dst = float64)
             then Some (Num (float64_of_int (int_value src z)))
             else None
      else if bool_decide (dst = float64) then
        match src with
        | float32 => Some (Num (widen_to_float64 8 23 z))
        | float16 => Some (Num (widen_to_float64 5 10 z))
        | _ => None
        end
      else None
  | _ => None
  end.

(** [request_inputs[features_names[0]].tensor_shape.dim[0].size]. *)
Definition first_dim0 (request_inputs : gmap string TensorProto)
  (features_names : list string) : result Z :=
  first_name <- (match features_names with
                 | n :: _ => Ok n
                 | [] => Raise IndexError
                 end);;
  first <- getitem request_inputs first_name;;
  dim0_size first.

Section Assembler.

(** Two things numpy does that the module does not determine: the
    conversion on assignment of a value to another element type, for the
    pairs of types [cast_item] leaves out ([convert dst src x], which may
    raise), and the contents of the fresh memory [np.empty] hands out, by
    flat index. *)
Variable convert : np_type -> np_type -> item -> result item.
Variable uninit : nat -> item.

(** Assignment of an element of type [src] into an array of type [dst]:
    a plain copy when the types agree, numpy's cast otherwise. *)
Definition setitem_cast (dst src : np_type) (x : item) : result item :=
  if bool_decide (dst = src) then Ok x
  else match cast_item dst src x with
       | Some y => Ok y
       | None => convert dst src x
       end.

(** [np.empty(shape, dtype)] for a two-dimensional shape; a [dtype] of
    [None] means [float64]. *)
Definition empty2 (ns nf : Z) (samples_dtype : option np_type) : result ndarray :=
  if (ns <? 0) || (nf <? 0) then Raise ValueError_negative_dim
  else Ok {| dtype := default float64 samples_dtype;
             shape := [ns; nf];
             data := map uninit (seq 0 (Z.to_nat (ns * nf)));
             base := None |}.

(** [samples[:, feature_index] = v] for a one-dimensional [v]. *)
Definition setitem_column (samples : ndarray) (feature_index : nat) (v : ndarray)
  : result ndarray :=
  match shape samples with
  | [ns; nf] =>
      if nf <=? Z.of_nat feature_index then Raise IndexError
      else
        vals <- (if size v =? ns then Ok (data v)
                 else match data v with
                      | [x] => Ok (replicate (Z.to_nat ns) x)
                      | _ => Raise ValueError_broadcast
                      end);;
        vals' <- mapM (setitem_cast (dtype samples) (dtype v)) vals;;
        Ok {| dtype := dtype samples; shape := shape samples;
              data := write_column (Z.to_nat nf) feature_index 0 vals' (data samples);
              base := base samples |}
  | _ => Raise IndexError
  end.

(** The body of the second loop of [parse_sample]. *)
Definition parse_feature (request_inputs : gmap string TensorProto) (nb_samples : Z)
  (samples : ndarray) (feature_index : nat) (feature_name : string) : result ndarray :=
  _ <- check_request_valid_length request_inputs feature_name nb_samples;;
  tensor <- getitem request_inputs feature_name;;
  nd_array <- make_ndarray_from_tensor tensor;;
  _ <- check_array_shape nd_array;;
  flat <- reshape nd_array [-1];;
  setitem_column samples feature_index flat.

(** [for feature_index, feature_name in enumerate(features_names)],
    from index [feature_index] on. *)
Fixpoint parse_features (request_inputs : gmap string TensorProto) (nb_samples : Z)
  (samples : ndarray) (feature_index : nat) (features_names : list string)
  : result ndarray :=
  match features_names with
  | [] => Ok samples
  | feature_name :: rest =>
      samples' <- parse_feature request_inputs nb_samples samples feature_index feature_name;;
      parse_features request_inputs nb_samples samples' (S feature_index) rest
  end.

Definition parse_sample (request_inputs : gmap string TensorProto)
  (features_names : list string) (nb_features : Z) (samples_dtype : option np_type)
  : result ndarray :=
  _ <- forM_ (check_request_feature_exists request_inputs) features_names;;
  nb_samples <- first_dim0 request_inputs features_names;;
  samples <- empty2 nb_samples nb_features samples_dtype;;
  parse_features request_inputs nb_samples samples 0 features_names.

End Assembler.

(** ** Well-formed arrays *)





(** ** Lemmas on the numpy model *)

Lemma pow256 n : 256 ^ Z.of_nat n = 2 ^ (8 * Z.of_nat n).
Proof. rewrite Z.pow_mul_r by lia. reflexivity. Qed.

Lemma to_signed_wrap bits z :
  0 < bits -> - 2 ^ (bits - 1) <= z < 2 ^ (bits - 1) ->
  to_signed bits (z mod 2 ^ bits) = z.
Proof.
  intros Hb Hz. unfold to_signed.
  assert (Hp : 2 ^ bits = 2 * 2 ^ (bits - 1)).
  { replace bits with (Z.succ (bits - 1)) at 1 by lia. apply Z.pow_succ_r. lia. }
  assert (Hpos : 0 < 2 ^ (bits - 1)) by (apply Z.pow_pos_nonneg; lia).
  destruct (Z_lt_le_dec z 0) as [Hneg | Hnn].
  - assert (Hm : z mod 2 ^ bits = z + 2 ^ bits).
    { symmetry. apply (Z.mod_unique_pos z (2 ^ bits) (-1)); lia. }
    rewrite Hm. destruct (Z.ltb_spec (z + 2 ^ bits) (2 ^ (bits - 1))); lia.
  - rewrite Z.mod_small by lia.
    destruct (Z.ltb_spec z (2 ^ (bits - 1))); lia.
Qed.

Lemma itemsize_pos t n : itemsize t = Some n -> (0 < n)%nat.
Proof. destruct t; simpl; intros H; inversion H; lia. Qed.



Lemma length_flat_map_const {A B} (f : A -> list B) (n : nat) (l : list A) :
  Forall (fun x => length (f x) = n) l ->
  length (flat_map f l) = (n * length l)%nat.
Proof.
  induction l as [|x r IH]; intros Hall; simpl; [lia|].
  apply Forall_cons in Hall as [Hx Hr].
  rewrite length_app, IH, Hx by exact Hr. lia.
Qed.

Lemma length_item_bytes n x : length (item_bytes n x) = n.
Proof. destruct x; simpl; apply LE.length_encode. Qed.



Lemma filter_known dims :
  forallb (fun d => 0 <=? d) dims = true ->
  List.filter (fun d => negb (d =? -1)) dims = dims.
Proof.
  induction dims as [|d r IH]; simpl; [reflexivity|].
  intros H. apply andb_prop in H as [Hd Hr]. apply Z.leb_le in Hd.
  destruct (Z.eqb_spec d (-1)); [lia|]. simpl. f_equal. auto.
Qed.

Lemma no_negative dims :
  forallb (fun d => 0 <=? d) dims = true ->
  forall k, k <= 0 -> existsb (fun d => d <? k) dims = false.
Proof.
  induction dims as [|d r IH]; simpl; [reflexivity|].
  intros H k Hk. apply andb_prop in H as [Hd Hr]. apply Z.leb_le in Hd.
  rewrite IH by assumption.
  destruct (Z.ltb_spec d k); [lia|reflexivity].
Qed.

(** Reshaping to a shape of non-negative dimensions whose product is the
    size succeeds and keeps the data. *)
Lemma reshape_ok a dims :
  forallb (fun d => 0 <=? d) dims = true -> prod dims = size a ->
  reshape a dims = Ok {| dtype := dtype a; shape := dims; data := data a; base := base a |}.
Proof.
  intros Hnn Hp. unfold reshape.
  rewrite (no_negative _ Hnn (-1)) by lia.
  rewrite filter_known by exact Hnn.
  rewrite Nat.sub_diag, Hp, Z.eqb_refl. reflexivity.
Qed.

Lemma wrap_signed_small bits v :
  0 < bits -> - 2 ^ (bits - 1) <= v < 2 ^ (bits - 1) -> wrap_signed bits v = v.
Proof. intros. unfold wrap_signed. now apply to_signed_wrap. Qed.

Lemma wrap_signed_lt bits v : 0 < bits -> wrap_signed bits v < 2 ^ (bits - 1).
Proof.
  intros Hb. unfold wrap_signed, to_signed.
  assert (Hp : 2 ^ bits = 2 * 2 ^ (bits - 1)).
  { replace bits with (Z.succ (bits - 1)) at 1 by lia. apply Z.pow_succ_r. lia. }
  assert (Hpos : 0 < 2 ^ (bits - 1)) by (apply Z.pow_pos_nonneg; lia).
  pose proof (Z.mod_pos_bound v (2 ^ bits)) as Hm.
  destruct (Z.ltb_spec (v mod 2 ^ bits) (2 ^ (bits - 1))); lia.
Qed.

Lemma prod_nonneg dims :
  forallb (fun d => 0 <=? d) dims = true -> 0 <= prod dims.
Proof.
  induction dims as [|d r IH]; [simpl; lia|].
  intros H. simpl in H. apply andb_prop in H as [Hd Hr]. apply Z.leb_le in Hd.
  change (0 <= d * prod r). apply Z.mul_nonneg_nonneg; auto.
Qed.

(** ** The decoder on typed value lists *)

(** The typed value list a tensor's type selects, as array elements;
    [None] for a type that has no list. *)
Definition value_list (tensor : TensorProto) : option (list item) :=
  match tensor_pb2.dtype tensor with
  | DT_FLOAT => Some (map Num (tensor_pb2.float_val tensor))
  | DT_DOUBLE => Some (map Num (tensor_pb2.double_val tensor))
  | DT_INT32 | DT_INT64 => Some (map Num (tensor_pb2.int_val tensor))
  | DT_BOOL => Some (map Num (map Z.b2z (tensor_pb2.bool_val tensor)))
  | DT_STRING => Some (map PyBytes (tensor_pb2.string_val tensor))
  | _ => None
  end.

(** A type that has a value list is registered, and [select_values]
    makes a fresh one-dimensional array of that list. *)
Lemma select_values_list tensor l :
  value_list tensor = Some l ->
  exists t, get_np_dtype (tensor_pb2.dtype tensor) = Ok t /\
            select_values tensor t =
              Ok {| dtype := t; shape := [Z.of_nat (length l)]; data := l; base := None |}.
Proof.
  unfold value_list, select_values, get_np_dtype, fromiter, array_of_bytes.
  destruct (tensor_pb2.dtype tensor); intros H; inversion H; subst; clear H;
    eexists; (split; [reflexivity|]); rewrite ?length_map; reflexivity.
Qed.

Lemma decode_value_list tensor l :
  tensor_pb2.tensor_content tensor = [] ->
  value_list tensor = Some l ->
  exists t, get_np_dtype (tensor_pb2.dtype tensor) = Ok t /\
            make_ndarray_from_tensor tensor =
              pad_and_reshape
                {| dtype := t; shape := [Z.of_nat (length l)]; data := l; base := None |}
                (tensor_pb2.tensor_shape tensor) t.
Proof.
  intros Hc Hl. destruct (select_values_list _ _ Hl) as (t & Ht & Hs).
  exists t. split; [exact Ht|].
  unfold make_ndarray_from_tensor. rewrite Ht, Hc. simpl. rewrite Hs. reflexivity.
Qed.

Lemma prod_int64_small dims :
  forallb (fun d => 0 <=? d) dims = true -> prod dims < 2 ^ 63 ->
  prod_int64 dims = prod dims.
Proof.
  intros Hnn Hlt. pose proof (prod_nonneg _ Hnn).
  unfold prod_int64. apply wrap_signed_small; simpl; lia.
Qed.

(** C6: without a raw-bytes payload the decoder reads the value list that
    matches the type: [float_val] for DT_FLOAT, [double_val] for DT_DOUBLE,
    the one [int_val] for both DT_INT32 and DT_INT64, [bool_val] for
    DT_BOOL, [string_val] for DT_STRING; the registered types that have no
    value list fail with UnsupportedEncoding (a code outside the registry
    has already failed with UnknownLogicalType). *)
Theorem decode_dispatch (tensor : TensorProto) :
  tensor_pb2.tensor_content tensor = [] ->
  make_ndarray_from_tensor tensor =
    let shape := tensor_pb2.tensor_shape tensor in
    match tensor_pb2.dtype tensor with
    | DT_FLOAT =>
        pad_and_reshape (fromiter (tensor_pb2.float_val tensor) float32) shape float32
    | DT_DOUBLE =>
        pad_and_reshape (fromiter (tensor_pb2.double_val tensor) float64) shape float64
    | DT_INT32 =>
        pad_and_reshape (fromiter (tensor_pb2.int_val tensor) int32) shape int32
    | DT_INT64 =>
        pad_and_reshape (fromiter (tensor_pb2.int_val tensor) int64) shape int64
    | DT_BOOL =>
        pad_and_reshape (fromiter (map Z.b2z (tensor_pb2.bool_val tensor)) bool_) shape bool_
    | DT_STRING =>
        pad_and_reshape (array_of_bytes (tensor_pb2.string_val tensor) object_) shape object_
    | DT_HALF | DT_UINT8 | DT_UINT16 | DT_UINT32 | DT_UINT64
    | DT_INT16 | DT_INT8 | DT_COMPLEX64 | DT_COMPLEX128 =>
        Raise UnsupportedEncoding
    | DT_INVALID | DT_QINT8 | DT_QUINT8 | DT_QINT32 | DT_BFLOAT16
    | DT_QINT16 | DT_QUINT16 | DT_RESOURCE | DT_VARIANT =>
        Raise UnknownLogicalType
    end.
Proof.
  intros Hc. unfold make_ndarray_from_tensor. rewrite Hc.
  unfold select_values. destruct (tensor_pb2.dtype tensor); reflexivity.
Qed.

Lemma decode_dispatch_witness :
  make_ndarray_from_tensor
    (tensor_pb2.mk_TensorProto DT_INT64 [2] [] [1] [2] [7; 8] [true] [])
  = Ok {| dtype := int64; shape := [2]; data := [Num 7; Num 8]; base := None |}.
Proof. rewrite decode_dispatch by reflexivity. reflexivity. Defined.

(** C5: without a raw-bytes payload and with an empty selected value
    list, the decoder raises nothing and returns the all-zero array of the
    declared shape and of the element type registered for the tensor's
    type: every element is the number 0 (the integer 0, the float +0.0
    whose bit pattern is 0, the boolean False), and for the byte-string
    type, whose arrays hold Python objects, the integer object 0. *)
Theorem decode_empty_list_zeros (tensor : TensorProto) :
  tensor_pb2.tensor_content tensor = [] ->
  value_list tensor = Some [] ->
  forallb (fun d => 0 <=? d) (tensor_pb2.tensor_shape tensor) = true ->
  exists t,
    get_np_dtype (tensor_pb2.dtype tensor) = Ok t /\
    make_ndarray_from_tensor tensor =
      Ok {| dtype := t;
            shape := tensor_pb2.tensor_shape tensor;
            data := replicate (Z.to_nat (prod (tensor_pb2.tensor_shape tensor)))
                              (if bool_decide (tensor_pb2.dtype tensor = DT_STRING)
                               then PyInt 0 else Num 0);
            base := None |}.
Proof.
  intros Hc Hl Hnn. destruct (decode_value_list _ _ Hc Hl) as (t & Ht & Hd).
  exists t. split; [exact Ht|]. rewrite Hd.
  unfold pad_and_reshape, zeros. simpl.
  rewrite (no_negative _ Hnn 0) by lia. do 3 f_equal.
  unfold value_list in Hl.
  destruct (tensor_pb2.dtype tensor); try discriminate Hl;
    inversion Ht; subst t; reflexivity.
Qed.

Lemma decode_empty_list_zeros_witness :
  exists t,
    get_np_dtype DT_INT32 = Ok t /\
    make_ndarray_from_tensor (tensor_pb2.mk_TensorProto DT_INT32 [2; 2] [] [] [] [] [] [])
    = Ok {| dtype := t; shape := [2; 2];
            data := [Num 0; Num 0; Num 0; Num 0]; base := None |}.
Proof.
  apply (decode_empty_list_zeros
           (tensor_pb2.mk_TensorProto DT_INT32 [2; 2] [] [] [] [] [] [])); reflexivity.
Defined.

(** An empty list of byte-strings decodes to integer zeros, not to empty
    byte-strings. *)
Example decode_empty_strings :
  make_ndarray_from_tensor (tensor_pb2.mk_TensorProto DT_STRING [2] [] [] [] [] [] [])
  = Ok {| dtype := object_; shape := [2]; data := [PyInt 0; PyInt 0]; base := None |}.
Proof. reflexivity. Qed.

(** C4: without a raw-bytes payload, a non-empty selected value list
    shorter than the declared element count is padded with copies of its
    last value up to that count and reshaped to the declared shape. *)
Theorem decode_short_list_padded (tensor : TensorProto) (l : list item) (x : item) :
  tensor_pb2.tensor_content tensor = [] ->
  value_list tensor = Some l ->
  last l = Some x ->
  forallb (fun d => 0 <=? d) (tensor_pb2.tensor_shape tensor) = true ->
  Z.of_nat (length l) < prod (tensor_pb2.tensor_shape tensor) < 2 ^ 63 ->
  exists t,
    get_np_dtype (tensor_pb2.dtype tensor) = Ok t /\
    make_ndarray_from_tensor tensor =
      Ok {| dtype := t;
            shape := tensor_pb2.tensor_shape tensor;
            data := l ++ replicate
                           (Z.to_nat (prod (tensor_pb2.tensor_shape tensor)
                                      - Z.of_nat (length l))) x;
            base := None |}.
Proof.
  intros Hc Hl Hlast Hnn [Hlt Hmax].
  destruct (decode_value_list _ _ Hc Hl) as (t & Ht & Hd).
  exists t. split; [exact Ht|]. rewrite Hd. clear Hd.
  set (shp := tensor_pb2.tensor_shape tensor) in *.
  assert (Hne : l <> []) by (intros ->; discriminate).
  unfold pad_and_reshape, size. cbn [data].
  destruct (Z.eqb_spec (Z.of_nat (length l)) 0) as [H0|_].
  { destruct l; [congruence | simpl in H0; lia]. }
  rewrite prod_int64_small by assumption.
  destruct (Z.eqb_spec (Z.of_nat (length l)) (prod shp)) as [He|_]; [lia|].
  cbn [negb]. unfold pad_edge. cbn [data dtype].
  destruct (Z.ltb_spec (prod shp - Z.of_nat (length l)) 0); [lia|].
  rewrite Hlast. cbn [bind].
  rewrite reshape_ok; [reflexivity | exact Hnn |].
  unfold size. cbn [data]. rewrite length_app, length_replicate. lia.
Qed.

Lemma decode_short_list_padded_witness :
  exists t,
    get_np_dtype DT_INT32 = Ok t /\
    make_ndarray_from_tensor
      (tensor_pb2.mk_TensorProto DT_INT32 [2; 2] [] [] [] [1; 2; 3] [] [])
    = Ok {| dtype := t; shape := [2; 2];
            data := [Num 1; Num 2; Num 3] ++ replicate (Z.to_nat (prod [2; 2] - 3)) (Num 3);
            base := None |}.
Proof.
  apply (decode_short_list_padded
           (tensor_pb2.mk_TensorProto DT_INT32 [2; 2] [] [] [] [1; 2; 3] [] [])
           [Num 1; Num 2; Num 3] (Num 3)); try reflexivity.
  simpl. lia.
Defined.

(** The example of the specification: shape [2,2] with the integer list
    [1,2,3] decodes to [[1,2],[3,3]]. *)
Example decode_2x2_of_three :
  make_ndarray_from_tensor
    (tensor_pb2.mk_TensorProto DT_INT32 [2; 2] [] [] [] [1; 2; 3] [] [])
  = Ok {| dtype := int32; shape := [2; 2];
          data := [Num 1; Num 2; Num 3; Num 3]; base := None |}.
Proof. reflexivity. Qed.

(** C10: without a raw-bytes payload, a selected value list longer than
    the declared element count makes the decoder raise: the pad step is
    called with a negative width and fails; nothing is truncated and no
    array is returned. *)
Theorem decode_long_list_raises (tensor : TensorProto) (l : list item) :
  tensor_pb2.tensor_content tensor = [] ->
  value_list tensor = Some l ->
  forallb (fun d => 0 <=? d) (tensor_pb2.tensor_shape tensor) = true ->
  prod (tensor_pb2.tensor_shape tensor) < Z.of_nat (length l) ->
  make_ndarray_from_tensor tensor = Raise ValueError_pad.
Proof.
  intros Hc Hl Hnn Hlt.
  destruct (decode_value_list _ _ Hc Hl) as (t & Ht & Hd).
  rewrite Hd. clear Hd.
  set (shp := tensor_pb2.tensor_shape tensor) in *.
  pose proof (prod_nonneg _ Hnn) as Hp.
  assert (Hw : prod_int64 shp < Z.of_nat (length l)).
  { destruct (Z_lt_le_dec (prod shp) (2 ^ 63)) as [Hs|Hb].
    - rewrite prod_int64_small by assumption. exact Hlt.
    - pose proof (wrap_signed_lt 64 (prod shp)) as Hw. unfold prod_int64.
      simpl in Hw. lia. }
  unfold pad_and_reshape, size. cbn [data].
  destruct (Z.eqb_spec (Z.of_nat (length l)) 0) as [H0|_]; [lia|].
  destruct (Z.eqb_spec (Z.of_nat (length l)) (prod_int64 shp)) as [He|_]; [lia|].
  cbn [negb]. unfold pad_edge, size. cbn [data].
  destruct (Z.ltb_spec (prod_int64 shp - Z.of_nat (length l)) 0); [reflexivity | lia].
Qed.

Lemma decode_long_list_raises_witness :
  make_ndarray_from_tensor
    (tensor_pb2.mk_TensorProto DT_INT32 [2; 2] [] [] [] [1; 2; 3; 4; 5] [] [])
  = Raise ValueError_pad.
Proof.
  apply (decode_long_list_raises
           (tensor_pb2.mk_TensorProto DT_INT32 [2; 2] [] [] [] [1; 2; 3; 4; 5] [] [])
           [Num 1; Num 2; Num 3; Num 4; Num 5]); try reflexivity.
Defined.

(** ** The decoder on raw bytes *)

Lemma length_chunks {A} (n k : nat) :
  (0 < n)%nat ->
  forall (fuel : nat) (l : list A),
    length l = (n * k)%nat -> (k <= fuel)%nat -> length (chunks fuel n l) = k.
Proof.
  intros Hn. induction k as [|k IH]; intros fuel l Hl Hf.
  - rewrite Nat.mul_0_r in Hl. apply length_zero_iff_nil in Hl. subst.
    destruct fuel; reflexivity.
  - destruct fuel as [|fuel]; [lia|].
    destruct l as [|x l]; [simpl in Hl; lia|].
    cbn [chunks length]. f_equal. apply IH; [|lia].
    rewrite length_drop, Hl. lia.
Qed.

Lemma reshape_inv a dims r :
  reshape a dims = Ok r ->
  dtype r = dtype a /\ data r = data a /\ base r = base a /\
  (forallb (fun d => 0 <=? d) dims = true -> shape r = dims).
Proof.
  unfold reshape. intros H.
  destruct (existsb _ dims); [discriminate|].
  destruct (length dims - length (List.filter _ dims))%nat as [|[|k]] eqn:E.
  - destruct (prod dims =? size a); inversion H; subst; simpl. auto.
  - destruct ((_ =? 0) || _); inversion H; subst; simpl.
    repeat split. intros Hnn. rewrite filter_known in E by exact Hnn. lia.
  - discriminate.
Qed.

Lemma frombuffer_inv buf t a :
  frombuffer buf t = Ok a ->
  dtype a = t /\ base a = Some buf /\
  exists n, itemsize t = Some n /\ data a = map (item_of_bytes t) (chunks (length buf) n buf).
Proof.
  unfold frombuffer. intros H. destruct (itemsize t) as [n|]; [|discriminate].
  destruct (_ =? 0); inversion H; subst; simpl. eauto.
Qed.

(** C3: a tensor with a non-empty raw-bytes payload is decoded from that
    payload alone: the buffer is read as a flat array of the registered
    element type, copied, and reshaped to the declared shape.  The result
    depends on no value list, owns its data ([base] is [None], whereas the
    view [np.frombuffer] gives has the payload as its base), and has the
    declared shape; the decoder succeeds whenever the payload holds exactly
    as many items as the shape declares. *)
Theorem decode_raw_bytes (tensor : TensorProto) (t : np_type) :
  tensor_pb2.tensor_content tensor <> [] ->
  get_np_dtype (tensor_pb2.dtype tensor) = Ok t ->
  let content := tensor_pb2.tensor_content tensor in
  let declared := tensor_pb2.tensor_shape tensor in
  make_ndarray_from_tensor tensor = (a <- frombuffer content t;; reshape (copy a) declared)
  /\ (forall fv dv iv bv sv,
        make_ndarray_from_tensor
          (tensor_pb2.mk_TensorProto (tensor_pb2.dtype tensor) declared content fv dv iv bv sv)
        = make_ndarray_from_tensor tensor)
  /\ (forall r, make_ndarray_from_tensor tensor = Ok r ->
        exists view n,
          frombuffer content t = Ok view /\ base view = Some content /\
          itemsize t = Some n /\
          dtype r = t /\ base r = None /\
          data r = map (item_of_bytes t) (chunks (length content) n content) /\
          (forallb (fun d => 0 <=? d) declared = true -> shape r = declared))
  /\ (forall n,
        itemsize t = Some n ->
        forallb (fun d => 0 <=? d) declared = true ->
        Z.of_nat (length content) = Z.of_nat n * prod declared ->
        make_ndarray_from_tensor tensor =
          Ok {| dtype := t; shape := declared;
                data := map (item_of_bytes t) (chunks (length content) n content);
                base := None |}).
Proof.
  intros Hne Ht content declared.
  assert (Hdec : forall fv dv iv bv sv,
            make_ndarray_from_tensor
              (tensor_pb2.mk_TensorProto (tensor_pb2.dtype tensor) declared content fv dv iv bv sv)
            = (a <- frombuffer content t;; reshape (copy a) declared)).
  { intros. unfold make_ndarray_from_tensor. cbn [tensor_pb2.dtype tensor_pb2.tensor_shape
      tensor_pb2.tensor_content]. rewrite Ht. cbn [bind].
    subst content. destruct (tensor_pb2.tensor_content tensor); [congruence | reflexivity]. }
  assert (Hself : make_ndarray_from_tensor tensor
                  = (a <- frombuffer content t;; reshape (copy a) declared)).
  { rewrite <- (Hdec (tensor_pb2.float_val tensor) (tensor_pb2.double_val tensor)
                     (tensor_pb2.int_val tensor) (tensor_pb2.bool_val tensor)
                     (tensor_pb2.string_val tensor)).
    subst content declared. destruct tensor; reflexivity. }
  split; [exact Hself|]. split; [intros; rewrite Hself; apply Hdec|]. split.
  - intros r Hr. rewrite Hself in Hr.
    destruct (frombuffer content t) as [view|] eqn:Hv; [|discriminate].
    cbn [bind] in Hr.
    destruct (frombuffer_inv _ _ _ Hv) as (Hvt & Hvb & n & Hn & Hvd).
    destruct (reshape_inv _ _ _ Hr) as (Hrt & Hrd & Hrb & Hrs).
    exists view, n. simpl in Hrt, Hrd, Hrb.
    repeat split; try assumption; congruence.
  - intros n Hn Hnn Hlen. rewrite Hself.
    pose proof (itemsize_pos _ _ Hn) as Hpos.
    unfold frombuffer. rewrite Hn, Hlen.
    rewrite Z.mul_comm, Z.mod_mul by lia. rewrite Z.eqb_refl. cbn [bind].
    rewrite reshape_ok; [reflexivity | exact Hnn |].
    unfold size, copy. cbn [data]. rewrite length_map.
    pose proof (prod_nonneg _ Hnn) as Hp.
    assert (Hl : length content = (n * Z.to_nat (prod declared))%nat) by nia.
    rewrite (length_chunks n (Z.to_nat (prod declared))); [lia | exact Hpos | exact Hl | nia].
Qed.

Lemma decode_raw_bytes_witness :
  make_ndarray_from_tensor
    (tensor_pb2.mk_TensorProto DT_INT16 [2; 1] ["001"; "000"; "255"; "255"]%byte
       [] [] [5] [] [])
  = Ok {| dtype := int16; shape := [2; 1]; data := [Num 1; Num (-1)]; base := None |}.
Proof.
  destruct (decode_raw_bytes
              (tensor_pb2.mk_TensorProto DT_INT16 [2; 1] ["001"; "000"; "255"; "255"]%byte
                 [] [] [5] [] [])
              int16) as (_ & _ & _ & H); [discriminate | reflexivity |].
  rewrite (H 2%nat); reflexivity.
Defined.

(** ** The narrowing conversions *)







Lemma map_fixed {A} (f : A -> A) (l : list A) :
  map f l = l <-> Forall (fun x => f x = x) l.
Proof.
  induction l as [|x r IH]; simpl.
  - split; auto.
  - rewrite Forall_cons. split.
    + intros H. inversion H as [[Hx Hr]]. rewrite Hx, Hr. split; [auto | now apply IH].
    + intros [Hx Hr]. f_equal; [exact Hx | now apply IH].
Qed.

(** ** The encoder's downcast *)

(** An element is the same after the cast to [int32]. *)
Definition survives_int32 (x : item) : Prop := map_num (wrap_signed 32) x = x.

Lemma array_equal_astype_int32 a :
  array_equal (astype_int32 a) a = true <-> Forall survives_int32 (data a).
Proof.
  unfold array_equal, astype_int32. cbn [shape data].
  rewrite bool_decide_eq_true_2 by reflexivity. cbn [andb].
  rewrite bool_decide_eq_true. apply map_fixed.
Qed.

(** C2: a [float64] array is always encoded as its [float32] narrowing; an
    [int64] array is encoded as its [int32] narrowing if and only if every
    element is the same after the narrowing, and otherwise keeps its
    64-bit element type and values. *)
Theorem encode_downcast (a : ndarray) :
  (dtype a = float64 ->
     make_tensor_proto a =
       Ok (mk_TensorProto DT_FLOAT (shape a) (tobytes (astype_float32 a)) [] [] [] [] []))
  /\ (dtype a = int64 ->
        (Forall survives_int32 (data a) ->
           make_tensor_proto a =
             Ok (mk_TensorProto DT_INT32 (shape a) (tobytes (astype_int32 a)) [] [] [] [] []))
        /\ (~ Forall survives_int32 (data a) ->
              make_tensor_proto a =
                Ok (mk_TensorProto DT_INT64 (shape a) (tobytes a) [] [] [] [] []))).
Proof.
  split; [|intros Hd; split].
  - intros Hd. unfold make_tensor_proto, prefer_32bit. rewrite Hd. reflexivity.
  - intros Hs. unfold make_tensor_proto, prefer_32bit. rewrite Hd.
    apply array_equal_astype_int32 in Hs.
    rewrite bool_decide_eq_false_2 by discriminate.
    rewrite bool_decide_eq_true_2 by reflexivity.
    rewrite Hs. reflexivity.
  - intros Hs. unfold make_tensor_proto, prefer_32bit. rewrite Hd.
    rewrite bool_decide_eq_false_2 by discriminate.
    rewrite bool_decide_eq_true_2 by reflexivity.
    destruct (array_equal (astype_int32 a) a) eqn:E.
    + apply array_equal_astype_int32 in E. contradiction.
    + rewrite Hd. reflexivity.
Qed.

(** [encode([1<<40, 2])]: the first value does not fit 32 bits, so the
    array stays [int64]. *)
Lemma encode_downcast_witness :
  make_tensor_proto (mk_ndarray int64 [2] [Num (2 ^ 40); Num 2] None) =
    Ok (mk_TensorProto DT_INT64 [2]
          (tobytes (mk_ndarray int64 [2] [Num (2 ^ 40); Num 2] None)) [] [] [] [] []).
Proof.
  destruct (encode_downcast (mk_ndarray int64 [2] [Num (2 ^ 40); Num 2] None))
    as (_ & H).
  destruct (H eq_refl) as (_ & H2). apply H2.
  intros Hall. apply Forall_cons in Hall as [H1 _]. discriminate H1.
Defined.

Example encode_small_ints :
  make_tensor_proto (mk_ndarray int64 [2] [Num (-5); Num 2] None) =
    Ok (mk_TensorProto DT_INT32 [2]
          ["251"; "255"; "255"; "255"; "002"; "000"; "000"; "000"]%byte [] [] [] [] []).
Proof. reflexivity. Qed.

(** [encode([1.0, 2.0, 3.0])]: float type, shape [3], the 32-bit
    encodings of 1, 2 and 3. *)
Example encode_three_floats :
  make_tensor_proto
    (mk_ndarray float64 [3]
       [Num 4607182418800017408; Num 4611686018427387904; Num 4613937818241073152] None) =
    Ok (mk_TensorProto DT_FLOAT [3]
          ["000"; "000"; "128"; "063"; "000"; "000"; "000"; "064";
           "000"; "000"; "064"; "064"]%byte [] [] [] [] []).
Proof. reflexivity. Qed.

(** ** The encoder on strings *)

(** The [bytes] object an array element is, if it is one. *)
Definition as_bytes (x : item) : option (list byte) :=
  match x with
  | PyBytes s => Some s
  | _ => None
  end.

(** The elements as [bytes] objects, if all of them are. *)
Fixpoint all_bytes (xs : list item) : option (list (list byte)) :=
  match xs with
  | [] => Some []
  | x :: r =>
      match as_bytes x, all_bytes r with
      | Some b, Some bs => Some (b :: bs)
      | _, _ => None
      end
  end.

Lemma isinstance_bytes_item x : isinstance_bytes (obj_of_item x) = as_bytes x.
Proof. destruct x; reflexivity. Qed.

Lemma all_bytes_app xs ys :
  all_bytes (xs ++ ys) =
    match all_bytes xs, all_bytes ys with
    | Some a, Some b => Some (a ++ b)
    | _, _ => None
    end.
Proof.
  induction xs as [|x r IH]; simpl.
  - destruct (all_bytes ys); reflexivity.
  - rewrite IH. destruct (as_bytes x); [|reflexivity].
    destruct (all_bytes r); [|reflexivity].
    destruct (all_bytes ys); reflexivity.
Qed.

Lemma all_bytes_Some xs bs :
  all_bytes xs = Some bs <-> xs = map PyBytes bs.
Proof.
  revert bs. induction xs as [|x r IH]; intros bs; simpl.
  - split; [intros H; inversion H; reflexivity|].
    destruct bs; [reflexivity | discriminate].
  - destruct x; simpl; try (split; [discriminate | destruct bs; discriminate]).
    destruct (all_bytes r) as [bs'|] eqn:E.
    + split.
      * intros H. inversion H; subst. simpl. f_equal. now apply IH.
      * destruct bs as [|b bs0]; [discriminate|]. simpl. intros H. inversion H; subst.
        f_equal. f_equal. assert (Hs : Some bs' = Some bs0) by now apply IH.
        now inversion Hs.
    + split; [discriminate|]. destruct bs as [|b bs0]; [discriminate|].
      simpl. intros H. inversion H; subst.
      assert (Hs : None = Some bs0) by now apply IH. discriminate.
Qed.

Lemma collect_bytes_items xs acc :
  collect_bytes (map obj_of_item xs) acc =
    match all_bytes xs with
    | Some bs => Ok (acc ++ bs)
    | None => Raise InvalidStringElement
    end.
Proof.
  revert acc. induction xs as [|x r IH]; intros acc; simpl.
  - now rewrite app_nil_r.
  - rewrite isinstance_bytes_item. destruct (as_bytes x) as [b|]; [|reflexivity].
    rewrite IH. destruct (all_bytes r); [|reflexivity].
    now rewrite <- app_assoc.
Qed.

(** The loop over the rows of a two-dimensional array visits the
    elements row by row. *)
Lemma collect_vectors_rows t c bse (rows : list (list item)) acc :
  collect_vectors
    (map (fun d => OArray {| dtype := t; shape := [c]; data := d; base := bse |}) rows) acc =
    match all_bytes (concat rows) with
    | Some bs => Ok (acc ++ bs)
    | None => Raise InvalidStringElement
    end.
Proof.
  revert acc. induction rows as [|d rows IH]; intros acc; simpl.
  - now rewrite app_nil_r.
  - rewrite collect_bytes_items, all_bytes_app.
    destruct (all_bytes d) as [bd|]; [|reflexivity]. simpl.
    rewrite IH. destruct (all_bytes (concat rows)); [|reflexivity].
    now rewrite <- app_assoc.
Qed.

Lemma take_plus {A} (n m : nat) (l : list A) :
  take (n + m) l = take n l ++ take m (drop n l).
Proof.
  revert l. induction n as [|n IH]; intros l; [reflexivity|].
  destruct l as [|x l]; simpl.
  - now rewrite take_nil.
  - now rewrite IH.
Qed.

Lemma rows_concat {A} (k r i0 : nat) (l : list A) :
  concat (map (fun i => take k (drop (i * k) l)) (seq i0 r)) =
    take (r * k) (drop (i0 * k) l).
Proof.
  revert i0. induction r as [|r IH]; intros i0; simpl; [reflexivity|].
  rewrite IH, take_plus, drop_drop. do 3 f_equal. lia.
Qed.

Lemma all_bytes_None xs :
  all_bytes xs = None <-> exists x, In x xs /\ as_bytes x = None.
Proof.
  induction xs as [|x r IH]; simpl.
  - split; [discriminate | intros (x & [] & _)].
  - destruct (as_bytes x) as [b|] eqn:Ex.
    + destruct (all_bytes r) as [bs|] eqn:Er.
      * split; [discriminate|]. intros (y & [-> | Hy] & Hn); [congruence|].
        assert (Hc : Some bs = None) by (apply IH; eauto). discriminate.
      * split; [|reflexivity]. intros _.
        destruct IH as [IH _]. destruct (IH eq_refl) as (y & Hy & Hn). eauto.
    + split; [|reflexivity]. intros _. exists x. auto.
Qed.

Lemma prefer_32bit_string a :
  get_tf_type (dtype a) = Ok DT_STRING -> prefer_32bit a = a.
Proof.
  intros H. unfold prefer_32bit.
  destruct (dtype a) eqn:E; try reflexivity; discriminate H.
Qed.

Lemma encode_strings_2d_eq a r c :
  get_tf_type (dtype a) = Ok DT_STRING ->
  shape a = [r; c] -> 0 <= r -> 0 <= c -> r * c = size a ->
  make_tensor_proto a =
    match all_bytes (data a) with
    | Some bs => Ok (mk_TensorProto DT_STRING [r; c] [] [] [] [] [] bs)
    | None => Raise InvalidStringElement
    end.
Proof.
  intros Ht Hs Hr Hc Hsz. unfold make_tensor_proto.
  rewrite prefer_32bit_string by exact Ht. rewrite Ht. cbn [bind].
  rewrite bool_decide_eq_true_2 by reflexivity.
  unfold iter_array. rewrite Hs. cbn [bind].
  rewrite <- (map_map (fun i => take (Z.to_nat (prod [c])) (drop (i * Z.to_nat (prod [c])) (data a)))
                      (fun d => OArray {| dtype := dtype a; shape := [c]; data := d;
                                         base := base a |})).
  rewrite collect_vectors_rows, rows_concat. rewrite Nat.mul_0_l, drop_0.
  rewrite take_ge.
  - destruct (all_bytes (data a)); cbn [bind app]; rewrite ?Hs; reflexivity.
  - unfold size in Hsz. simpl. nia.
Qed.

(** C7 (as amended): for a two-dimensional array whose type resolves to
    the byte-string type, the encoder writes the elements, row by row, to
    the typed value list (and no raw bytes) when every element is a
    [bytes] object, and fails with InvalidStringElement when some element
    is not. *)
Theorem encode_strings_2d (a : ndarray) (r c : Z) :
  get_tf_type (dtype a) = Ok DT_STRING ->
  shape a = [r; c] -> 0 <= r -> 0 <= c -> r * c = size a ->
  (forall bs, data a = map PyBytes bs ->
     make_tensor_proto a = Ok (mk_TensorProto DT_STRING [r; c] [] [] [] [] [] bs))
  /\ ((exists x, In x (data a) /\ as_bytes x = None) ->
        make_tensor_proto a = Raise InvalidStringElement).
Proof.
  intros Ht Hs Hr Hc Hsz.
  rewrite (encode_strings_2d_eq a r c Ht Hs Hr Hc Hsz). split.
  - intros bs Hbs. apply all_bytes_Some in Hbs. now rewrite Hbs.
  - intros Hx. apply all_bytes_None in Hx. now rewrite Hx.
Qed.

(** [encode([[b"x"], [b"y"]])] succeeds; with [str] elements instead the
    type still resolves to the byte-string type and the encoder fails. *)
Lemma encode_strings_2d_witness :
  make_tensor_proto
    (mk_ndarray bytes_ [2; 1] [PyBytes ["x"%byte]; PyBytes ["y"%byte]] None)
  = Ok (mk_TensorProto DT_STRING [2; 1] [] [] [] [] [] [["x"%byte]; ["y"%byte]])
  /\ make_tensor_proto
       (mk_ndarray str_ [2; 1] [PyStr "x"; PyStr "y"] None)
     = Raise InvalidStringElement.
Proof.
  split.
  - apply (encode_strings_2d
             (mk_ndarray bytes_ [2; 1] [PyBytes ["x"%byte]; PyBytes ["y"%byte]] None) 2 1);
      try reflexivity; lia.
  - apply (encode_strings_2d (mk_ndarray str_ [2; 1] [PyStr "x"; PyStr "y"] None) 2 1);
      try reflexivity; try lia.
    exists (PyStr "x"). split; [left; reflexivity | reflexivity].
Defined.

(** C7 as stated fails outside two dimensions: the flat array
    [[b"x", b"y"]] holds only [bytes] objects, and the encoder rejects it,
    because its inner loop walks the bytes of each element.  And the
    encoder has no target type: [[[1], [2]]] resolves to the 32-bit
    integer type and is encoded as raw bytes. *)
Lemma encode_flat_bytes_rejected :
  all_bytes [PyBytes ["x"%byte]; PyBytes ["y"%byte]] = Some [["x"%byte]; ["y"%byte]]
  /\ make_tensor_proto
       (mk_ndarray bytes_ [2] [PyBytes ["x"%byte]; PyBytes ["y"%byte]] None)
     = Raise InvalidStringElement
  /\ make_tensor_proto (mk_ndarray int64 [2; 1] [Num 1; Num 2] None)
     = Ok (mk_TensorProto DT_INT32 [2; 1]
             ["001"; "000"; "000"; "000"; "002"; "000"; "000"; "000"]%byte [] [] [] [] []).
Proof. repeat split; reflexivity. Qed.

(** ** Round trip *)



















Example roundtrip_three_floats :
  (t <- make_tensor_proto
          (mk_ndarray float64 [3]
             [Num 4607182418800017408; Num 4611686018427387904; Num 4613937818241073152]
             None);;
   make_ndarray_from_tensor t)
  = Ok (mk_ndarray float32 [3] [Num 1065353216; Num 1073741824; Num 1077936128] None).
Proof. reflexivity. Qed.


(** ** Columns of a row-major matrix *)

Lemma cell_inj nf r j r' j' :
  (j < nf)%nat -> (j' < nf)%nat -> cell nf r j = cell nf r' j' -> r = r' /\ j = j'.
Proof.
  unfold cell. intros Hj Hj' H.
  destruct (Nat.lt_trichotomy r r') as [Hlt | [Heq | Hgt]].
  - pose proof (Nat.mul_le_mono_r (S r) r' nf ltac:(lia)). simpl in *. lia.
  - subst. lia.
  - pose proof (Nat.mul_le_mono_r (S r') r nf ltac:(lia)). simpl in *. lia.
Qed.

Lemma length_write_column nf j r vals d :
  length (write_column nf j r vals d) = length d.
Proof.
  revert r d. induction vals as [|v vs IH]; intros r d; simpl; [reflexivity|].
  now rewrite IH, length_insert.
Qed.

(** A cell that is none of the cells written keeps its content. *)
Lemma write_column_other nf j r0 vals (d : list item) i :
  (forall k, (k < length vals)%nat -> cell nf (r0 + k) j <> i) ->
  write_column nf j r0 vals d !! i = d !! i.
Proof.
  revert r0 d. induction vals as [|v vs IH]; intros r0 d H; simpl; [reflexivity|].
  rewrite IH.
  - apply list_lookup_insert_ne. specialize (H 0%nat). rewrite Nat.add_0_r in H.
    apply H. simpl. lia.
  - intros k Hk. replace (S r0 + k)%nat with (r0 + S k)%nat by lia.
    apply H. simpl. lia.
Qed.

(** Row [r0 + k] of the written column holds the [k]-th value. *)
Lemma write_column_written nf j r0 vals (d : list item) k v :
  (j < nf)%nat -> vals !! k = Some v -> (cell nf (r0 + k) j < length d)%nat ->
  write_column nf j r0 vals d !! cell nf (r0 + k) j = Some v.
Proof.
  intros Hj. revert r0 d k. induction vals as [|v0 vs IH]; intros r0 d k Hk Hlen.
  - discriminate.
  - destruct k as [|k]; simpl in Hk |- *.
    + inversion Hk; subst. rewrite Nat.add_0_r in *.
      rewrite write_column_other.
      * now apply list_lookup_insert_eq.
      * intros k _ E. apply cell_inj in E as [E _]; [lia | exact Hj | exact Hj].
    + replace (r0 + S k)%nat with (S r0 + k)%nat in * by lia.
      apply IH; [exact Hk | now rewrite length_insert].
Qed.

Lemma column_eq (m : ndarray) ns nf j :
  shape m = [ns; nf] ->
  column m j = map (fun r => data m !! cell (Z.to_nat nf) r j) (seq 0 (Z.to_nat ns)).
Proof. intros H. unfold column. now rewrite H. Qed.

Lemma map_seq_lookup {A} (vals : list A) (f : nat -> option A) :
  (forall k v, vals !! k = Some v -> f k = Some v) ->
  map f (seq 0 (length vals)) = map Some vals.
Proof.
  intros H. apply list_eq. intros k.
  rewrite !list_lookup_fmap.
  destruct (vals !! k) as [v|] eqn:E.
  - assert (Hk : (k < length vals)%nat) by (eapply lookup_lt_Some; eauto).
    rewrite lookup_seq_lt by exact Hk. simpl. f_equal. now apply H.
  - apply lookup_ge_None in E. rewrite lookup_seq_ge by lia. reflexivity.
Qed.

Lemma mapM_length {A B} (f : A -> result B) l l' :
  mapM f l = Ok l' -> length l' = length l.
Proof.
  revert l'. induction l as [|x r IH]; intros l' H; simpl in H.
  - inversion H. reflexivity.
  - destruct (f x); [|discriminate]. simpl in H.
    destruct (mapM f r) as [ys|]; [|discriminate]. simpl in H.
    inversion H; subst. simpl. f_equal. now apply IH.
Qed.

(** ** Sizes of decoded arrays *)

Lemma prod_inferred (q : Z) (dims : list Z) :
  prod (map (fun d => if d =? -1 then q else d) dims) =
    q ^ Z.of_nat (length dims - length (List.filter (fun d : Z => negb (d =? -1)%Z) dims))
    * prod (List.filter (fun d : Z => negb (d =? -1)%Z) dims).
Proof.
  induction dims as [|d r IH]; [reflexivity|].
  pose proof (List.filter_length_le (fun d : Z => negb (d =? -1)%Z) r) as Hle.
  cbn [map List.filter length].
  change (prod (?x :: ?l)) with (x * prod l).
  destruct (Z.eqb_spec d (-1)) as [->|Hne]; cbn [negb].
  - rewrite IH.
    replace (S (length r) - length (List.filter (fun d : Z => negb (d =? -1)%Z) r))%nat
      with (S (length r - length (List.filter (fun d : Z => negb (d =? -1)%Z) r))) by lia.
    rewrite Nat2Z.inj_succ, Z.pow_succ_r by lia. lia.
  - cbn [length]. change (prod (?x :: ?l)) with (x * prod l). rewrite IH.
    replace (S (length r) - S (length (List.filter (fun d : Z => negb (d =? -1)%Z) r)))%nat
      with (length r - length (List.filter (fun d : Z => negb (d =? -1)%Z) r))%nat by lia.
    lia.
Qed.

Lemma reshape_size a dims r :
  reshape a dims = Ok r -> prod (shape r) = size r.
Proof.
  unfold reshape. intros H.
  destruct (existsb _ dims); [discriminate|].
  destruct (length dims - length (List.filter _ dims))%nat as [|[|k]] eqn:E.
  - destruct (Z.eqb_spec (prod dims) (size a)); inversion H; subst. assumption.
  - destruct (Z.eqb_spec (prod (List.filter (fun d : Z => negb (d =? -1)%Z) dims)) 0) as [|Hp];
      [discriminate|].
    destruct (Z.eqb_spec (size a mod prod (List.filter (fun d : Z => negb (d =? -1)%Z) dims)) 0)
      as [Hm|]; [|discriminate].
    cbn [orb negb] in H. inversion H; subst. cbn [shape]. unfold size at 2. cbn [data].
    rewrite prod_inferred, E. change (Z.of_nat 1) with 1. rewrite Z.pow_1_r.
    fold (size a). apply Z.div_exact in Hm; lia.
  - discriminate.
Qed.

Lemma nonneg_of_no_negative dims :
  existsb (fun d => d <? 0) dims = false -> forallb (fun d => 0 <=? d) dims = true.
Proof.
  induction dims as [|d r IH]; simpl; [reflexivity|].
  intros H. apply orb_false_elim in H as [Hd Hr].
  rewrite IH by exact Hr. apply Z.ltb_ge in Hd.
  destruct (Z.leb_spec 0 d); [reflexivity | lia].
Qed.

Lemma zeros_size shp t r : zeros shp t = Ok r -> prod (shape r) = size r.
Proof.
  unfold zeros. destruct (existsb _ shp) eqn:E; [discriminate|].
  intros H. inversion H; subst. unfold size. cbn [shape data].
  rewrite length_replicate.
  pose proof (prod_nonneg _ (nonneg_of_no_negative _ E)). lia.
Qed.

(** Every array the decoder returns has as many elements as its shape says. *)
Lemma decode_size tensor a :
  make_ndarray_from_tensor tensor = Ok a -> prod (shape a) = size a.
Proof.
  unfold make_ndarray_from_tensor. intros H.
  destruct (get_np_dtype _) as [t|]; [|discriminate]. cbn [bind] in H.
  destruct (tensor_pb2.tensor_content tensor).
  - destruct (select_values tensor t) as [values|]; [|discriminate]. cbn [bind] in H.
    unfold pad_and_reshape in H.
    destruct (size values =? 0); [now apply zeros_size in H|].
    destruct (if negb _ then _ else _) as [values'|]; [|discriminate]. cbn [bind] in H.
    now apply reshape_size in H.
  - destruct (frombuffer _ t) as [v|]; [|discriminate]. cbn [bind] in H.
    now apply reshape_size in H.
Qed.

Lemma reshape_first_dim a d rest r :
  reshape a (d :: rest) = Ok r -> 0 <= d -> exists rest', shape r = d :: rest'.
Proof.
  unfold reshape. intros H Hd.
  destruct (existsb _ (d :: rest)); [discriminate|].
  destruct (length (d :: rest) - length (List.filter _ (d :: rest)))%nat as [|[|k]];
    try discriminate.
  - destruct (prod (d :: rest) =? size a); inversion H; subst. cbn [shape]. eauto.
  - destruct (_ || _); [discriminate|]. inversion H; subst. cbn [shape map].
    destruct (Z.eqb_spec d (-1)); [lia|]. eauto.
Qed.

(** A declared first dimension that is not negative is the first
    dimension of the decoded array. *)
Lemma decode_first_dim tensor a ns :
  make_ndarray_from_tensor tensor = Ok a -> dim0_size tensor = Ok ns -> 0 <= ns ->
  exists rest, shape a = ns :: rest.
Proof.
  unfold make_ndarray_from_tensor, dim0_size. intros H Hd Hns.
  destruct (tensor_pb2.tensor_shape tensor) as [|d rest]; [discriminate|].
  inversion Hd; subst d.
  destruct (get_np_dtype _) as [t|]; [|discriminate]. cbn [bind] in H.
  destruct (tensor_pb2.tensor_content tensor).
  - destruct (select_values tensor t) as [values|]; [|discriminate]. cbn [bind] in H.
    unfold pad_and_reshape in H.
    destruct (size values =? 0).
    + unfold zeros in H. destruct (existsb _ (ns :: rest)); [discriminate|].
      inversion H; subst. cbn [shape]. eauto.
    + destruct (if negb _ then _ else _) as [values'|]; [|discriminate]. cbn [bind] in H.
      eapply reshape_first_dim; eauto.
  - destruct (frombuffer _ t) as [v|]; [|discriminate]. cbn [bind] in H.
    eapply reshape_first_dim; eauto.
Qed.

(** [a.reshape(-1)] flattens any array. *)
Lemma reshape_flat a :
  reshape a [-1] = Ok {| dtype := dtype a; shape := [size a]; data := data a; base := base a |}.
Proof. unfold reshape. cbn. rewrite Z.mod_1_r. cbn. now rewrite Z.div_1_r. Qed.

(** ** The sample assembler: columns *)

(** A feature as C8 assumes it: present, with first dimension
    [nb_samples], and decoding to an array of shape [(nb_samples, 1)]. *)
Definition good_feature (request_inputs : gmap string TensorProto) (nb_samples : Z)
  (feature_name : string) (nd_array : ndarray) : Prop :=
  exists tensor,
    request_inputs !! feature_name = Some tensor /\
    dim0_size tensor = Ok nb_samples /\
    make_ndarray_from_tensor tensor = Ok nd_array /\
    shape nd_array = [nb_samples; 1].

Section AssemblerProofs.

Variable convert : np_type -> np_type -> item -> result item.
Variable uninit : nat -> item.



Lemma good_feature_size request_inputs ns name a :
  good_feature request_inputs ns name a -> size a = ns.
Proof.
  intros (t & _ & _ & Hd & Hs). apply decode_size in Hd. rewrite Hs in Hd.
  simpl in Hd. lia.
Qed.

(** One turn of the loop on a good feature writes its converted values
    to column [i]. *)
Lemma parse_feature_good request_inputs ns nf samples i name a vals :
  shape samples = [ns; nf] -> Z.of_nat i < nf ->
  good_feature request_inputs ns name a ->
  mapM (setitem_cast convert (dtype samples) (dtype a)) (data a) = Ok vals ->
  parse_feature convert request_inputs ns samples i name =
    Ok {| dtype := dtype samples; shape := shape samples;
          data := write_column (Z.to_nat nf) i 0 vals (data samples);
          base := base samples |}.
Proof.
  intros Hs Hi Hg Hv. pose proof (good_feature_size _ _ _ _ Hg) as Hsz.
  destruct Hg as (t & Hl & Hd0 & Hdec & Hsa).
  unfold parse_feature, check_request_valid_length, getitem.
  rewrite Hl. cbn [bind]. rewrite Hd0. cbn [bind]. rewrite Z.eqb_refl. cbn [negb bind].
  rewrite Hdec. cbn [bind].
  unfold check_array_shape. rewrite Hsa. cbn [Z.eqb Pos.eqb negb bind].
  assert (Hflat : reshape a [-1] =
                  Ok {| dtype := dtype a; shape := [size a]; data := data a; base := base a |}).
  { unfold reshape. cbn. rewrite Z.mod_1_r. cbn. now rewrite Z.div_1_r. }
  rewrite Hflat. cbn [bind].
  unfold setitem_column. rewrite Hs.
  destruct (Z.leb_spec nf (Z.of_nat i)); [lia|].
  unfold size at 1. cbn [data dtype]. fold (size a). rewrite Hsz, Z.eqb_refl. cbn [bind].
  rewrite Hv. reflexivity.
Qed.

(** The loop from index [i] on, over good features: every named column
    is written, every other column is left as it was. *)
Lemma parse_features_good request_inputs ns nf names :
  forall samples i,
    shape samples = [ns; nf] -> 0 <= ns ->
    Z.of_nat (i + length names) <= nf ->
    length (data samples) = (Z.to_nat ns * Z.to_nat nf)%nat ->
    (forall name, In name names ->
       exists a vals,
         good_feature request_inputs ns name a /\
         mapM (setitem_cast convert (dtype samples) (dtype a)) (data a) = Ok vals) ->
    exists m,
      parse_features convert request_inputs ns samples i names = Ok m /\
      dtype m = dtype samples /\ shape m = [ns; nf] /\ base m = base samples /\
      (forall k name, names !! k = Some name ->
         exists a vals,
           good_feature request_inputs ns name a /\
           mapM (setitem_cast convert (dtype samples) (dtype a)) (data a) = Ok vals /\
           column m (i + k) = map Some vals) /\
      (forall j, (j < i \/ i + length names <= j)%nat -> (j < Z.to_nat nf)%nat ->
         column m j = column samples j).
Proof.
  induction names as [|name rest IH]; intros samples i Hs Hns Hi Hlen Hgood.
  - exists samples. cbn [parse_features]. repeat split; auto.
    intros k name Hk. discriminate.
  - destruct (Hgood name (or_introl eq_refl)) as (a & vals & Hg & Hv).
    pose proof (good_feature_size _ _ _ _ Hg) as Hsz.
    pose proof (mapM_length _ _ _ Hv) as Hlv.
    assert (Hlv' : length vals = Z.to_nat ns) by (unfold size in Hsz; lia).
    cbn [parse_features length] in *.
    rewrite (parse_feature_good request_inputs ns nf samples i name a vals Hs ltac:(lia) Hg Hv).
    cbn [bind].
    set (samples' := {| dtype := dtype samples; shape := shape samples;
                        data := write_column (Z.to_nat nf) i 0 vals (data samples);
                        base := base samples |}).
    assert (Hinf : (i < Z.to_nat nf)%nat) by lia.
    destruct (IH samples' (S i)) as (m & Hm & Hdt & Hsh & Hb & Hcols & Hkeep).
    + exact Hs.
    + exact Hns.
    + lia.
    + subst samples'. cbn [data]. now rewrite length_write_column.
    + intros n Hn. apply Hgood. now right.
    + exists m. split; [exact Hm|]. repeat split; try assumption.
      * intros k n Hk. destruct k as [|k]; cbn in Hk.
        -- inversion Hk; subst n. exists a, vals. repeat split; try assumption.
           rewrite Nat.add_0_r, Hkeep by lia.
           rewrite (column_eq samples' ns nf i Hs). subst samples'. cbn [data].
           rewrite <- Hlv'. apply map_seq_lookup. intros r v Hr.
           apply (write_column_written (Z.to_nat nf) i 0 vals (data samples) r v Hinf Hr).
           apply lookup_lt_Some in Hr. rewrite Hlen. unfold cell. simpl. nia.
        -- replace (i + S k)%nat with (S i + k)%nat by lia. now apply Hcols.
      * intros j Hj Hjn. rewrite Hkeep by lia.
        rewrite (column_eq samples' ns nf j Hs), (column_eq samples ns nf j Hs).
        subst samples'. cbn [data]. apply map_ext_in. intros r _.
        apply write_column_other. intros k _ E.
        apply cell_inj in E as [_ E]; [lia | exact Hinf | exact Hjn].
Qed.

Lemma forM_check_exists (request_inputs : gmap string TensorProto) names :
  (forall name, In name names -> is_Some (request_inputs !! name)) ->
  forM_ (check_request_feature_exists request_inputs) names = Ok tt.
Proof.
  induction names as [|n r IH]; intros H; simpl; [reflexivity|].
  unfold check_request_feature_exists at 1.
  destruct (H n (or_introl eq_refl)) as (t & ->). cbn [bind].
  apply IH. intros name Hn. apply H. now right.
Qed.


(** ** The sample assembler: failures *)

Lemma forM_check_missing (request_inputs : gmap string TensorProto) pre name post :
  (forall n, In n pre -> is_Some (request_inputs !! n)) ->
  request_inputs !! name = None ->
  forM_ (check_request_feature_exists request_inputs) (pre ++ name :: post)
  = Raise (MissingFeature name).
Proof.
  induction pre as [|n r IH]; intros Hpre Hname; simpl.
  - unfold check_request_feature_exists. now rewrite Hname.
  - unfold check_request_feature_exists at 1.
    destruct (Hpre n (or_introl eq_refl)) as (t & ->). cbn [bind].
    apply IH; [|exact Hname]. intros k Hk. apply Hpre. now right.
Qed.

Lemma parse_features_app request_inputs ns l1 l2 :
  forall samples i,
    parse_features convert request_inputs ns samples i (l1 ++ l2) =
      (samples' <- parse_features convert request_inputs ns samples i l1;;
       parse_features convert request_inputs ns samples' (i + length l1) l2).
Proof.
  induction l1 as [|n r IH]; intros samples i; simpl.
  - now rewrite Nat.add_0_r.
  - destruct (parse_feature convert request_inputs ns samples i n) as [s|]; [|reflexivity].
    cbn [bind]. rewrite IH. now replace (S i + length r)%nat with (i + S (length r))%nat by lia.
Qed.

Lemma check_array_shape_bad a :
  (forall d0, shape a <> [d0; 1]) -> check_array_shape a = Raise InvalidShape.
Proof.
  intros H. unfold check_array_shape.
  destruct (shape a) as [|d0 [|d1 [|? ?]]]; try reflexivity.
  destruct (Z.eqb_spec d1 1) as [->|]; [|reflexivity].
  now specialize (H d0).
Qed.

Lemma check_array_shape_ok a :
  check_array_shape a = Ok tt -> exists d0, shape a = [d0; 1].
Proof.
  unfold check_array_shape.
  destruct (shape a) as [|d0 [|d1 [|? ?]]]; try discriminate.
  destruct (Z.eqb_spec d1 1) as [->|]; [|discriminate]. eauto.
Qed.

(** A turn of the loop that returns has written the converted values of
    a good feature to a column the matrix has. *)
Lemma parse_feature_inv request_inputs ns nf samples i name m :
  shape samples = [ns; nf] -> 0 <= ns ->
  parse_feature convert request_inputs ns samples i name = Ok m ->
  Z.of_nat i < nf /\
  exists a vals,
    good_feature request_inputs ns name a /\
    mapM (setitem_cast convert (dtype samples) (dtype a)) (data a) = Ok vals.
Proof.
  intros Hs Hns H. unfold parse_feature, check_request_valid_length, getitem in H.
  destruct (request_inputs !! name) as [t|] eqn:Hl; [|discriminate]. cbn [bind] in H.
  destruct (dim0_size t) as [d|] eqn:Hd; [|discriminate]. cbn [bind] in H.
  destruct (Z.eqb_spec d ns) as [->|]; [|discriminate]. cbn [negb bind] in H.
  destruct (make_ndarray_from_tensor t) as [a|] eqn:Ha; [|discriminate]. cbn [bind] in H.
  destruct (check_array_shape a) as [[]|] eqn:Hc; [|discriminate]. cbn [bind] in H.
  apply check_array_shape_ok in Hc as (d0 & Hsa).
  destruct (decode_first_dim _ _ _ Ha Hd Hns) as (rest & Hfd).
  rewrite Hsa in Hfd. inversion Hfd; subst d0 rest.
  assert (Hg : good_feature request_inputs ns name a) by (exists t; auto).
  pose proof (good_feature_size _ _ _ _ Hg) as Hsz.
  rewrite reshape_flat in H. cbn [bind] in H.
  unfold setitem_column in H. rewrite Hs in H.
  destruct (Z.leb_spec nf (Z.of_nat i)); [discriminate|].
  unfold size at 1 in H. cbn [data dtype] in H. fold (size a) in H.
  rewrite Hsz, Z.eqb_refl in H. cbn [bind] in H.
  destruct (mapM (setitem_cast convert (dtype samples) (dtype a)) (data a)) as [vals|] eqn:Hv;
    [|discriminate].
  split; [lia|]. exists a, vals. auto.
Qed.

Lemma parse_features_inv request_inputs ns nf names :
  forall samples i m,
    shape samples = [ns; nf] -> 0 <= ns ->
    parse_features convert request_inputs ns samples i names = Ok m ->
    (names <> [] -> Z.of_nat (i + length names) <= nf) /\
    forall name, In name names ->
      exists a vals,
        good_feature request_inputs ns name a /\
        mapM (setitem_cast convert (dtype samples) (dtype a)) (data a) = Ok vals.
Proof.
  induction names as [|n r IH]; intros samples i m Hs Hns H.
  - split; [congruence | intros ? []].
  - cbn [parse_features] in H.
    destruct (parse_feature convert request_inputs ns samples i n) as [s|] eqn:Hf;
      [|discriminate].
    cbn [bind] in H.
    destruct (parse_feature_inv _ _ _ _ _ _ _ Hs Hns Hf) as (Hi & a & vals & Hg & Hv).
    rewrite (parse_feature_good request_inputs ns nf samples i n a vals Hs Hi Hg Hv) in Hf.
    inversion Hf; subst s. clear Hf.
    apply IH in H as (Hb & Hr); [| exact Hs | exact Hns].
    split.
    + intros _. cbn [length]. destruct r as [|n' r'].
      * cbn [length]. lia.
      * specialize (Hb ltac:(discriminate)). cbn [length] in Hb |- *. lia.
    + intros name [<-|Hin]; [eauto|]. apply Hr in Hin. exact Hin.
Qed.

(** The columns of the matrix [np.empty] hands out. *)
Lemma empty2_column ns nf dt samples j :
  empty2 uninit ns nf dt = Ok samples -> (j < Z.to_nat nf)%nat ->
  column samples j =
    map (fun r => Some (uninit (cell (Z.to_nat nf) r j))) (seq 0 (Z.to_nat ns)).
Proof.
  unfold empty2. intros H Hj.
  destruct (Z.ltb_spec ns 0); [discriminate|].
  destruct (Z.ltb_spec nf 0); [discriminate|]. cbn [orb] in H.
  inversion H; subst. unfold column. cbn [shape data].
  apply map_ext_in. intros r Hr. apply in_seq in Hr.
  rewrite list_lookup_fmap, lookup_seq_lt; [reflexivity|].
  rewrite Z2Nat.inj_mul by lia. unfold cell. nia.
Qed.

(** C9 (as amended): [parse_sample] fails with MissingFeature(name) for
    the first absent name, whatever the other tensors hold, since all
    names are checked before anything is decoded; with
    InvalidLength(name) for a feature whose first dimension is not
    [nb_samples]; with InvalidShape, an exception that does not carry the
    name, for a feature that decodes to an array that is not of shape
    [(n, 1)]; and it returns a matrix only if every named feature passed
    every check.  The matrix returned then has a column for every name,
    completely written with the converted values of the decoded feature;
    the columns beyond the named ones, which exist when [nb_features]
    exceeds the number of names, were never written and hold what the
    allocated memory held. *)
Theorem parse_sample_failures
  (request_inputs : gmap string TensorProto) (features_names : list string)
  (nb_features : Z) (samples_dtype : option np_type) :
  (forall pre name post,
     features_names = pre ++ name :: post ->
     (forall n, In n pre -> is_Some (request_inputs !! n)) ->
     request_inputs !! name = None ->
     parse_sample convert uninit request_inputs features_names nb_features samples_dtype
     = Raise (MissingFeature name))
  /\ (forall nb_samples samples pre name post samples' tensor d,
        (forall n, In n features_names -> is_Some (request_inputs !! n)) ->
        first_dim0 request_inputs features_names = Ok nb_samples ->
        empty2 uninit nb_samples nb_features samples_dtype = Ok samples ->
        features_names = pre ++ name :: post ->
        parse_features convert request_inputs nb_samples samples 0 pre = Ok samples' ->
        request_inputs !! name = Some tensor ->
        dim0_size tensor = Ok d -> d <> nb_samples ->
        parse_sample convert uninit request_inputs features_names nb_features samples_dtype
        = Raise (InvalidLength name))
  /\ (forall nb_samples samples pre name post samples' tensor a,
        (forall n, In n features_names -> is_Some (request_inputs !! n)) ->
        first_dim0 request_inputs features_names = Ok nb_samples ->
        empty2 uninit nb_samples nb_features samples_dtype = Ok samples ->
        features_names = pre ++ name :: post ->
        parse_features convert request_inputs nb_samples samples 0 pre = Ok samples' ->
        request_inputs !! name = Some tensor ->
        dim0_size tensor = Ok nb_samples ->
        make_ndarray_from_tensor tensor = Ok a ->
        (forall d0, shape a <> [d0; 1]) ->
        parse_sample convert uninit request_inputs features_names nb_features samples_dtype
        = Raise InvalidShape)
  /\ (forall m,
        parse_sample convert uninit request_inputs features_names nb_features samples_dtype
        = Ok m ->
        exists nb_samples,
          first_dim0 request_inputs features_names = Ok nb_samples /\
          shape m = [nb_samples; nb_features] /\
          Z.of_nat (length features_names) <= nb_features /\
          (forall i name, features_names !! i = Some name ->
             exists a vals,
               good_feature request_inputs nb_samples name a /\
               mapM (setitem_cast convert (dtype m) (dtype a)) (data a) = Ok vals /\
               column m i = map Some vals) /\
          (forall j, (length features_names <= j < Z.to_nat nb_features)%nat ->
             column m j =
               map (fun r => Some (uninit (cell (Z.to_nat nb_features) r j)))
                   (seq 0 (Z.to_nat nb_samples)))).
Proof.
  split; [|split; [|split]].
  - intros pre name post -> Hpre Hname. unfold parse_sample.
    now rewrite forM_check_missing.
  - intros ns samples pre name post samples' tensor d Hall Hns He -> Hpre Ht Hd Hne.
    unfold parse_sample. rewrite forM_check_exists by exact Hall. cbn [bind].
    rewrite Hns. cbn [bind]. rewrite He. cbn [bind].
    rewrite parse_features_app, Hpre. cbn [bind parse_features].
    unfold parse_feature, check_request_valid_length, getitem.
    rewrite Ht. cbn [bind]. rewrite Hd. cbn [bind].
    destruct (Z.eqb_spec d ns); [contradiction | reflexivity].
  - intros ns samples pre name post samples' tensor a Hall Hns He -> Hpre Ht Hd Ha Hbad.
    unfold parse_sample. rewrite forM_check_exists by exact Hall. cbn [bind].
    rewrite Hns. cbn [bind]. rewrite He. cbn [bind].
    rewrite parse_features_app, Hpre. cbn [bind parse_features].
    unfold parse_feature, check_request_valid_length, getitem.
    rewrite Ht. cbn [bind]. rewrite Hd. cbn [bind]. rewrite Z.eqb_refl. cbn [negb bind].
    rewrite Ha. cbn [bind]. rewrite (check_array_shape_bad a Hbad). reflexivity.
  - intros m H. unfold parse_sample in H.
    destruct (forM_ _ features_names) as [[]|]; [|discriminate]. cbn [bind] in H.
    destruct (first_dim0 request_inputs features_names) as [ns|] eqn:Hfd; [|discriminate].
    cbn [bind] in H.
    destruct (empty2 uninit ns nb_features samples_dtype) as [s|] eqn:He; [|discriminate].
    cbn [bind] in H.
    assert (Hne : features_names <> []).
    { intros ->. cbn in Hfd. discriminate Hfd. }
    assert (Hshape : shape s = [ns; nb_features] /\ 0 <= ns /\ 0 <= nb_features /\
                     length (data s) = (Z.to_nat ns * Z.to_nat nb_features)%nat).
    { unfold empty2 in He.
      destruct (Z.ltb_spec ns 0); [discriminate|].
      destruct (Z.ltb_spec nb_features 0); [discriminate|]. cbn [orb] in He.
      inversion He; subst s. cbn [shape data]. repeat split; try assumption.
      rewrite length_map, length_seq. apply Z2Nat.inj_mul; lia. }
    destruct Hshape as (Hs & Hns & Hnf & Hlen).
    destruct (parse_features_inv request_inputs ns nb_features features_names s 0%nat m
                Hs Hns H) as (Hb & Hgood).
    specialize (Hb Hne). cbn [Nat.add] in Hb.
    destruct (parse_features_good request_inputs ns nb_features features_names s 0%nat
                Hs Hns Hb Hlen Hgood) as (m' & Hm' & Hdt & Hsh & _ & Hcols & Hkeep).
    rewrite H in Hm'. inversion Hm'; subst m'. clear Hm'.
    exists ns. split; [reflexivity|]. split; [exact Hsh|]. split; [exact Hb|]. split.
    + intros i name Hi. destruct (Hcols i name Hi) as (a & vals & Hg & Hv & Hc).
      exists a, vals. rewrite Hdt. auto.
    + intros j Hj. rewrite Hkeep by lia.
      apply (empty2_column ns nb_features samples_dtype s j He). lia.
Qed.

End AssemblerProofs.

(** ** The sample assembler on concrete requests *)

(** For requests whose features already have the matrix's element type
    no conversion takes place; this one refuses them all. *)
Definition convert_none : np_type -> np_type -> item -> result item :=
  fun _ _ _ => Raise ValueError_setitem.

(** Fresh memory that happens to hold zeros. *)
Definition zero_memory : nat -> item := fun _ => Num 0.

(** A tensor of doubles given by its value list. *)
Definition doubles (shp : list Z) (vals : list Z) : TensorProto :=
  mk_TensorProto DT_DOUBLE shp [] [] vals [] [] [].

(** The doubles 1.0 to 5.0 and 6.0 to 10.0, as bit patterns. *)
Definition one_to_five : list Z :=
  [4607182418800017408; 4611686018427387904; 4613937818241073152;
   4616189618054758400; 4617315517961601024].

Definition six_to_ten : list Z :=
  [4618441417868443648; 4619567317775286272; 4620693217682128896;
   4621256167635550208; 4621819117588971520].

Definition request_ab : gmap string TensorProto :=
  <["a" := doubles [5; 1] one_to_five]> (<["b" := doubles [5; 1] six_to_ten]> ∅).

(** Two features of five scalars give a 5x2 matrix, column 0 from "a"
    and column 1 from "b". *)
Example parse_sample_5x2 :
  parse_sample convert_none zero_memory request_ab ["a"; "b"] 2 None
  = Ok (mk_ndarray float64 [5; 2]
          (map Num [4607182418800017408; 4618441417868443648;
                    4611686018427387904; 4619567317775286272;
                    4613937818241073152; 4620693217682128896;
                    4616189618054758400; 4621256167635550208;
                    4617315517961601024; 4621819117588971520]) None).
Proof. vm_compute. reflexivity. Qed.



(** Conversions on assignment, on values: the integer 5, the 32-bit
    float 1.0 and the boolean True become the doubles 5.0, 1.0 and 1.0;
    2^40 + 7 stored into 32-bit integers is 7, 255 stored into signed
    bytes is -1, and 2^53 + 1 has no double of its own. *)
Example cast_item_values :
  cast_item float64 int32 (Num 5) = Some (Num 4617315517961601024)
  /\ cast_item float64 float32 (Num 1065353216) = Some (Num 4607182418800017408)
  /\ cast_item float64 bool_ (Num 1) = Some (Num 4607182418800017408)
  /\ cast_item int32 int64 (Num (2 ^ 40 + 7)) = Some (Num 7)
  /\ cast_item int8 uint8 (Num 255) = Some (Num (-1))
  /\ cast_item float64 int64 (Num (2 ^ 53 + 1)) = cast_item float64 int64 (Num (2 ^ 53)).
Proof. repeat split; vm_compute; reflexivity. Qed.




Definition request_a_only : gmap string TensorProto :=
  <["a" := doubles [5; 1] one_to_five]> ∅.

Definition request_b_short : gmap string TensorProto :=
  <["a" := doubles [5; 1] one_to_five]> (<["b" := doubles [4; 1] [0; 0; 0; 0]]> ∅).

Definition request_a_wide : gmap string TensorProto :=
  <["a" := doubles [5; 2] (one_to_five ++ six_to_ten)]>
    (<["b" := doubles [5; 1] six_to_ten]> ∅).

Definition request_b_wide : gmap string TensorProto :=
  <["a" := doubles [5; 1] one_to_five]>
    (<["b" := doubles [5; 2] (one_to_five ++ six_to_ten)]> ∅).

(** Memory in which every cell holds its own flat index. *)
Definition stale_memory : nat -> item := fun k => Num (Z.of_nat k).

(** Omitting "b" fails with MissingFeature("b"), giving "b" four samples
    with InvalidLength("b"), giving "a" the shape [5, 2] with
    InvalidShape; and in the 5x3 matrix returned for the two features
    of [request_ab], columns 0 and 1 hold the features and column 2
    holds what the memory held. *)
Lemma parse_sample_failures_witness :
  parse_sample convert_none zero_memory request_a_only ["a"; "b"] 2 None
  = Raise (MissingFeature "b")
  /\ parse_sample convert_none zero_memory request_b_short ["a"; "b"] 2 None
     = Raise (InvalidLength "b")
  /\ parse_sample convert_none zero_memory request_a_wide ["a"; "b"] 2 None
     = Raise InvalidShape
  /\ (exists m,
        parse_sample convert_none stale_memory request_ab ["a"; "b"] 3 None = Ok m /\
        shape m = [5; 3] /\
        column m 0 = map (fun z => Some (Num z)) one_to_five /\
        column m 1 = map (fun z => Some (Num z)) six_to_ten /\
        column m 2 = map (fun z => Some (Num z)) [2; 5; 8; 11; 14]).
Proof.
  split; [|split; [|split]]; cycle 3.
  { destruct (parse_sample convert_none stale_memory request_ab ["a"; "b"] 3 None)
      as [m|e] eqn:Hm; [|vm_compute in Hm; discriminate Hm].
    exists m. split; [reflexivity|].
    destruct (parse_sample_failures convert_none stale_memory request_ab ["a"; "b"] 3 None)
      as (_ & _ & _ & H).
    destruct (H m Hm) as (ns & Hfd & Hsh & _ & Hcols & Hspare).
    vm_compute in Hfd. injection Hfd as <-.
    assert (Hdt : dtype m = float64) by (vm_compute in Hm; injection Hm as <-; reflexivity).
    split; [exact Hsh|]. split; [|split].
    - destruct (Hcols 0%nat "a" eq_refl) as (a & vals & (t & Hl & _ & Ha & _) & Hv & Hc).
      vm_compute in Hl. injection Hl as <-. vm_compute in Ha. injection Ha as <-.
      rewrite Hc, Hdt in *. vm_compute in Hv. injection Hv as <-. reflexivity.
    - destruct (Hcols 1%nat "b" eq_refl) as (a & vals & (t & Hl & _ & Ha & _) & Hv & Hc).
      vm_compute in Hl. injection Hl as <-. vm_compute in Ha. injection Ha as <-.
      rewrite Hc, Hdt in *. vm_compute in Hv. injection Hv as <-. reflexivity.
    - rewrite (Hspare 2%nat) by (simpl; lia). vm_compute. reflexivity. }
  - destruct (parse_sample_failures convert_none zero_memory request_a_only ["a"; "b"] 2 None)
      as (H & _).
    apply (H ["a"] "b" []); [reflexivity | | reflexivity].
    intros n [<- | []]. eexists. vm_compute. reflexivity.
  - destruct (parse_sample_failures convert_none zero_memory request_b_short ["a"; "b"] 2 None)
      as (_ & H & _).
    eapply (H 5 _ ["a"] "b" [] _ (doubles [4; 1] [0; 0; 0; 0]) 4).
    + intros n [<- | [<- | []]]; eexists; vm_compute; reflexivity.
    + vm_compute. reflexivity.
    + reflexivity.
    + reflexivity.
    + vm_compute. reflexivity.
    + vm_compute. reflexivity.
    + reflexivity.
    + discriminate.
  - destruct (parse_sample_failures convert_none zero_memory request_a_wide ["a"; "b"] 2 None)
      as (_ & _ & H & _).
    eapply (H 5 _ [] "a" ["b"] _ (doubles [5; 2] (one_to_five ++ six_to_ten))).
    + intros n [<- | [<- | []]]; eexists; vm_compute; reflexivity.
    + vm_compute. reflexivity.
    + reflexivity.
    + reflexivity.
    + reflexivity.
    + vm_compute. reflexivity.
    + reflexivity.
    + vm_compute. reflexivity.
    + intros d0 E. discriminate E.
Defined.

(** C9 as stated fails in two ways.  On the shape error: the exception
    raised for the wide feature "a" and the one raised for the wide
    feature "b" are the same value, with the one fixed message; it names
    no feature.  And a matrix that is not fully populated is returned:
    with three columns asked for the two features of [request_ab], the
    third column of the result is never written, and holds 2, 5, 8, 11
    and 14 when every cell of the allocated memory held its index. *)
Lemma invalid_shape_names_no_feature :
  (parse_sample convert_none zero_memory request_a_wide ["a"; "b"] 2 None
   = Raise (PythieServingException "All input vectors should be 1D tensor")
   /\ parse_sample convert_none zero_memory request_b_wide ["a"; "b"] 2 None
      = Raise (PythieServingException "All input vectors should be 1D tensor"))
  /\ parse_sample convert_none stale_memory request_ab ["a"; "b"] 3 None
     = Ok (mk_ndarray float64 [5; 3]
             (map Num [4607182418800017408; 4618441417868443648; 2;
                       4611686018427387904; 4619567317775286272; 5;
                       4613937818241073152; 4620693217682128896; 8;
                       4616189618054758400; 4621256167635550208; 11;
                       4617315517961601024; 4621819117588971520; 14]) None).
Proof. repeat split; vm_compute; reflexivity. Qed.

(** * Further properties *)

(** ** The registry *)

(** X1: the two registry tables are inverse to each other on every
    registered type but the string type: a wire type other than DT_STRING
    resolves to an element type that resolves back to it, and an element
    type that resolves to a wire type other than DT_STRING is the one that
    wire type resolves to.  DT_STRING resolves to the object dtype, whose
    scalar type [numpy.object_] has no entry: [get_tf_type] fails on it. *)
Theorem registry_inverse (tf : DataType) (t : np_type) :
  (get_np_dtype tf = Ok t -> tf <> DT_STRING -> get_tf_type t = Ok tf)
  /\ (get_tf_type t = Ok tf -> tf <> DT_STRING -> get_np_dtype tf = Ok t)
  /\ get_np_dtype DT_STRING = Ok object_
  /\ get_tf_type object_ = Raise UnknownNativeType.
Proof.
  repeat split.
  - destruct tf; intros H Hs; try discriminate H; try congruence;
      inversion H; subst; reflexivity.
  - destruct t; intros H Hs; try discriminate H;
      inversion H; subst; try congruence; reflexivity.
Qed.

Lemma registry_inverse_witness :
  get_tf_type uint16 = Ok DT_UINT16 /\ get_np_dtype DT_HALF = Ok float16.
Proof.
  split.
  - destruct (registry_inverse DT_UINT16 uint16) as (H & _).
    apply H; [reflexivity | discriminate].
  - destruct (registry_inverse DT_HALF float16) as (_ & H & _).
    apply H; [reflexivity | discriminate].
Defined.

(** ** Arrays the decoder returns *)

Lemma pad_edge_inv a after r :
  pad_edge a after = Ok r -> dtype r = dtype a /\ base r = None.
Proof.
  unfold pad_edge. destruct (after <? 0); [discriminate|].
  destruct (last (data a)).
  - intros H. inversion H; subst. auto.
  - destruct (after =? 0); [|discriminate]. intros H. inversion H; subst. auto.
Qed.

Lemma select_values_inv tensor t values :
  select_values tensor t = Ok values -> dtype values = t /\ base values = None.
Proof.
  unfold select_values. destruct (tensor_pb2.dtype tensor); try discriminate;
    intros H; inversion H; subst; auto.
Qed.

(** X2: every array the decoder returns has the element type registered
    for the tensor's wire type, has exactly as many elements as its shape
    says, owns its data, and has the declared shape when no declared
    dimension is negative. *)
Theorem decode_result_invariants (tensor : TensorProto) (a : ndarray) :
  make_ndarray_from_tensor tensor = Ok a ->
  get_np_dtype (tensor_pb2.dtype tensor) = Ok (dtype a)
  /\ prod (shape a) = size a
  /\ base a = None
  /\ (forallb (fun d => 0 <=? d) (tensor_pb2.tensor_shape tensor) = true ->
      shape a = tensor_pb2.tensor_shape tensor).
Proof.
  intros H. pose proof (decode_size _ _ H) as Hsz.
  unfold make_ndarray_from_tensor in H.
  destruct (get_np_dtype _) as [t|]; [|discriminate]. cbn [bind] in H.
  destruct (tensor_pb2.tensor_content tensor) as [|c cs].
  - destruct (select_values tensor t) as [values|] eqn:Hsel; [|discriminate].
    cbn [bind] in H. apply select_values_inv in Hsel as (Hvt & Hvb).
    unfold pad_and_reshape in H. destruct (size values =? 0).
    + unfold zeros in H. destruct (existsb _ _); [discriminate|].
      inversion H; subst. cbn. auto.
    + destruct (negb _).
      * destruct (pad_edge values _) as [p|] eqn:Hp; [|discriminate]. cbn [bind] in H.
        apply pad_edge_inv in Hp as (Hpt & Hpb).
        apply reshape_inv in H as (Hrt & _ & Hrb & Hrs).
        repeat split; try assumption; congruence.
      * cbn [bind] in H. apply reshape_inv in H as (Hrt & _ & Hrb & Hrs).
        repeat split; try assumption; congruence.
  - destruct (frombuffer _ t) as [v|] eqn:Hv; [|discriminate]. cbn [bind] in H.
    apply frombuffer_inv in Hv as (Hvt & _).
    apply reshape_inv in H as (Hrt & _ & Hrb & Hrs). cbn in Hrt, Hrb.
    repeat split; try assumption; congruence.
Qed.

Lemma decode_result_invariants_witness :
  get_np_dtype DT_BOOL = Ok bool_
  /\ prod [3; 1] = 3
  /\ @None (list byte) = None
  /\ (forallb (fun d => 0 <=? d) [3; 1] = true -> [3; 1] = [3; 1]).
Proof.
  apply (decode_result_invariants
           (tensor_pb2.mk_TensorProto DT_BOOL [3; 1] [] [] [] [] [true; false] [])
           (mk_ndarray bool_ [3; 1] [Num 1; Num 0; Num 0] None)).
  reflexivity.
Defined.

(** X3: an array decoded from a byte-string tensor cannot be encoded
    again: it has the object dtype, for which the encoder finds no wire
    type. *)
Theorem decoded_strings_not_encodable (tensor : TensorProto) (a : ndarray) :
  tensor_pb2.dtype tensor = DT_STRING ->
  make_ndarray_from_tensor tensor = Ok a ->
  make_tensor_proto a = Raise UnknownNativeType.
Proof.
  intros Hs H.
  assert (Hd : dtype a = object_).
  { unfold make_ndarray_from_tensor in H. rewrite Hs in H.
    change (get_np_dtype DT_STRING) with (Ok object_) in H. cbn [bind] in H.
    destruct (tensor_pb2.tensor_content tensor) as [|c cs].
    - destruct (select_values tensor object_) as [values|] eqn:Hsel; [|discriminate].
      cbn [bind] in H. apply select_values_inv in Hsel as (Hvt & _).
      unfold pad_and_reshape in H. destruct (size values =? 0).
      + unfold zeros in H. destruct (existsb _ _); [discriminate|].
        inversion H; subst. reflexivity.
      + destruct (negb _).
        * destruct (pad_edge values _) as [p|] eqn:Hp; [|discriminate]. cbn [bind] in H.
          apply pad_edge_inv in Hp as (Hpt & _).
          apply reshape_inv in H as (Hrt & _). congruence.
        * cbn [bind] in H. apply reshape_inv in H as (Hrt & _). congruence.
    - discriminate H. }
  unfold make_tensor_proto, prefer_32bit. rewrite Hd.
  rewrite !bool_decide_eq_false_2 by discriminate. rewrite Hd. reflexivity.
Qed.

Lemma decoded_strings_not_encodable_witness :
  make_tensor_proto
    (mk_ndarray object_ [2; 1] [PyBytes ["x"%byte]; PyBytes ["y"%byte]] None)
  = Raise UnknownNativeType.
Proof.
  apply (decoded_strings_not_encodable
           (tensor_pb2.mk_TensorProto DT_STRING [2; 1] [] [] [] [] []
              [["x"%byte]; ["y"%byte]])); reflexivity.
Defined.

(** ** Tensors the encoder returns *)

Lemma prefer_32bit_shape a : shape (prefer_32bit a) = shape a.
Proof.
  unfold prefer_32bit. destruct (bool_decide _); [reflexivity|].
  destruct (bool_decide _); [|reflexivity].
  destruct (array_equal _ _); reflexivity.
Qed.

Lemma prefer_32bit_length a : length (data (prefer_32bit a)) = length (data a).
Proof.
  unfold prefer_32bit. destruct (bool_decide _); [simpl; apply length_map|].
  destruct (bool_decide _); [|reflexivity].
  destruct (array_equal _ _); [simpl; apply length_map | reflexivity].
Qed.

Lemma prefer_32bit_not_float64 a : dtype (prefer_32bit a) <> float64.
Proof.
  unfold prefer_32bit. destruct (bool_decide (dtype a = float64)) eqn:E; [discriminate|].
  apply bool_decide_eq_false in E.
  destruct (bool_decide _); [|exact E].
  destruct (array_equal _ _); [discriminate | exact E].
Qed.

(** X4: every tensor the encoder returns carries the shape of the
    array, leaves the four numeric value lists empty, and never has the
    double type.  Its payload has one of two forms: the byte-string type
    with no raw bytes; or another type with no string values and raw
    bytes of exactly item size times element count. *)
Theorem encode_output_invariants (a : ndarray) (t : TensorProto) :
  make_tensor_proto a = Ok t ->
  tensor_pb2.tensor_shape t = shape a
  /\ tensor_pb2.float_val t = [] /\ tensor_pb2.double_val t = []
  /\ tensor_pb2.int_val t = [] /\ tensor_pb2.bool_val t = []
  /\ tensor_pb2.dtype t <> DT_DOUBLE
  /\ ((tensor_pb2.dtype t = DT_STRING /\ tensor_pb2.tensor_content t = [])
      \/ (tensor_pb2.dtype t <> DT_STRING /\ tensor_pb2.string_val t = [] /\
          exists nt n,
            get_np_dtype (tensor_pb2.dtype t) = Ok nt /\ itemsize nt = Some n /\
            length (tensor_pb2.tensor_content t) = (n * length (data a))%nat)).
Proof.
  unfold make_tensor_proto. intros H.
  pose proof (prefer_32bit_shape a) as Hsh.
  pose proof (prefer_32bit_length a) as Hln.
  pose proof (prefer_32bit_not_float64 a) as Hnf.
  set (b := prefer_32bit a) in *.
  destruct (get_tf_type (dtype b)) as [tf|] eqn:Htf; [|discriminate]. cbn [bind] in H.
  assert (Hnd : tf <> DT_DOUBLE).
  { destruct (dtype b); try discriminate Htf; inversion Htf; subst;
      try discriminate; congruence. }
  destruct (bool_decide (tf = DT_STRING)) eqn:Es.
  - apply bool_decide_eq_true in Es.
    destruct (iter_array b) as [vs|]; [|discriminate]. cbn [bind] in H.
    destruct (collect_vectors vs []) as [sv|]; [|discriminate]. cbn [bind] in H.
    inversion H; subst t. cbn. repeat split; auto.
  - apply bool_decide_eq_false in Es. inversion H; subst t. cbn.
    repeat split; auto. right. repeat split; auto.
    assert (Hfix : exists n, itemsize (dtype b) = Some n /\ get_np_dtype tf = Ok (dtype b)).
    { destruct (dtype b); try discriminate Htf; inversion Htf; subst;
        try congruence; eexists; split; reflexivity. }
    destruct Hfix as (n & Hn & Hnp).
    exists (dtype b), n. repeat split; try assumption.
    unfold tobytes. rewrite Hn, <- Hln.
    apply length_flat_map_const. apply Forall_forall. intros x _.
    apply length_item_bytes.
Qed.

Lemma encode_output_invariants_witness :
  tensor_pb2.dtype
    (mk_TensorProto DT_INT32 [2] ["251"; "255"; "255"; "255"; "002"; "000"; "000"; "000"]%byte
       [] [] [] [] []) <> DT_DOUBLE.
Proof.
  destruct (encode_output_invariants
              (mk_ndarray int64 [2] [Num (-5); Num 2] None)
              (mk_TensorProto DT_INT32 [2]
                 ["251"; "255"; "255"; "255"; "002"; "000"; "000"; "000"]%byte [] [] [] [] [])
              eq_refl) as (_ & _ & _ & _ & _ & H & _).
  exact H.
Defined.

(** ** The decoder on ill-sized payloads *)

(** X5: with non-negative declared dimensions, a non-empty raw-bytes
    payload of a fixed-width type decodes successfully if and only if its
    length is the item size times the declared element count; otherwise
    the decoder raises, either on reading the buffer or on reshaping. *)
Theorem decode_raw_bytes_ok_iff (tensor : TensorProto) (t : np_type) (n : nat) :
  tensor_pb2.tensor_content tensor <> [] ->
  get_np_dtype (tensor_pb2.dtype tensor) = Ok t ->
  itemsize t = Some n ->
  forallb (fun d => 0 <=? d) (tensor_pb2.tensor_shape tensor) = true ->
  let len := Z.of_nat (length (tensor_pb2.tensor_content tensor)) in
  let count := prod (tensor_pb2.tensor_shape tensor) in
  (len = Z.of_nat n * count -> is_ok (make_ndarray_from_tensor tensor) = true)
  /\ (len mod Z.of_nat n <> 0 ->
      make_ndarray_from_tensor tensor = Raise ValueError_frombuffer)
  /\ (len mod Z.of_nat n = 0 -> len <> Z.of_nat n * count ->
      make_ndarray_from_tensor tensor = Raise ValueError_reshape).
Proof.
  intros Hne Ht Hn Hnn len count.
  pose proof (itemsize_pos _ _ Hn) as Hpos.
  pose proof (prod_nonneg _ Hnn) as Hp. fold count in Hp.
  assert (Hdec : make_ndarray_from_tensor tensor =
                 (a <- frombuffer (tensor_pb2.tensor_content tensor) t;;
                  reshape (copy a) (tensor_pb2.tensor_shape tensor))).
  { unfold make_ndarray_from_tensor. rewrite Ht. cbn [bind].
    destruct (tensor_pb2.tensor_content tensor); [congruence | reflexivity]. }
  rewrite Hdec. unfold frombuffer. rewrite Hn. fold len.
  split; [|split].
  - intros Hlen. rewrite Hlen, Z.mul_comm, Z.mod_mul, Z.eqb_refl by lia. cbn [bind].
    rewrite reshape_ok; [reflexivity | exact Hnn |].
    unfold size, copy. cbn [data]. rewrite length_map.
    assert (Hl : length (tensor_pb2.tensor_content tensor) = (n * Z.to_nat count)%nat)
      by (subst len; nia).
    rewrite (length_chunks n (Z.to_nat count)); [fold count; lia | exact Hpos | exact Hl | nia].
  - intros Hm. destruct (Z.eqb_spec (len mod Z.of_nat n) 0); [contradiction | reflexivity].
  - intros Hm Hlen. rewrite Hm. cbn [Z.eqb bind].
    unfold reshape.
    rewrite (no_negative _ Hnn (-1)) by lia.
    rewrite filter_known by exact Hnn. rewrite Nat.sub_diag.
    unfold size, copy. cbn [data]. rewrite length_map.
    apply Z.mod_divide in Hm; [|lia]. destruct Hm as (k & Hk).
    assert (Hk0 : 0 <= k) by nia.
    assert (Hl : length (tensor_pb2.tensor_content tensor) = (n * Z.to_nat k)%nat)
      by (subst len; nia).
    rewrite (length_chunks n (Z.to_nat k)); [| exact Hpos | exact Hl | nia].
    fold count. destruct (Z.eqb_spec count (Z.of_nat (Z.to_nat k))); [|reflexivity].
    exfalso. apply Hlen. nia.
Qed.

Lemma decode_raw_bytes_ok_iff_witness :
  make_ndarray_from_tensor
    (tensor_pb2.mk_TensorProto DT_INT16 [2] ["001"; "000"; "002"]%byte [] [] [] [] [])
  = Raise ValueError_frombuffer
  /\ make_ndarray_from_tensor
       (tensor_pb2.mk_TensorProto DT_INT16 [3] ["001"; "000"; "002"; "000"]%byte [] [] [] [] [])
     = Raise ValueError_reshape.
Proof.
  split.
  - destruct (decode_raw_bytes_ok_iff
                (tensor_pb2.mk_TensorProto DT_INT16 [2] ["001"; "000"; "002"]%byte
                   [] [] [] [] []) int16 2%nat) as (_ & H & _);
      [discriminate | reflexivity | reflexivity | reflexivity |].
    apply H. discriminate.
  - destruct (decode_raw_bytes_ok_iff
                (tensor_pb2.mk_TensorProto DT_INT16 [3] ["001"; "000"; "002"; "000"]%byte
                   [] [] [] [] []) int16 2%nat) as (_ & _ & H);
      [discriminate | reflexivity | reflexivity | reflexivity |].
    apply H; [reflexivity | discriminate].
Defined.

(** ** Value lists: exact length, and what padding hides *)

(** The end of the decoder on a non-empty list of at most the declared
    element count: the list, filled up with its last value. *)
Lemma pad_and_reshape_fill t (l : list item) x dims :
  last l = Some x ->
  forallb (fun d => 0 <=? d) dims = true ->
  Z.of_nat (length l) <= prod dims < 2 ^ 63 ->
  pad_and_reshape {| dtype := t; shape := [Z.of_nat (length l)]; data := l; base := None |}
                  dims t =
    Ok {| dtype := t; shape := dims;
          data := l ++ replicate (Z.to_nat (prod dims - Z.of_nat (length l))) x;
          base := None |}.
Proof.
  intros Hlast Hnn [Hle Hmax].
  unfold pad_and_reshape, size. cbn [data].
  destruct (Z.eqb_spec (Z.of_nat (length l)) 0) as [H0|_].
  { destruct l; [discriminate | simpl in H0; lia]. }
  rewrite prod_int64_small by assumption.
  destruct (Z.eqb_spec (Z.of_nat (length l)) (prod dims)) as [He|Hne]; cbn [negb bind].
  - rewrite reshape_ok; [|exact Hnn | unfold size; cbn [data]; lia].
    cbn [dtype data base]. rewrite He, Z.sub_diag. cbn [Z.to_nat replicate].
    now rewrite app_nil_r.
  - unfold pad_edge, size. cbn [data dtype].
    destruct (Z.ltb_spec (prod dims - Z.of_nat (length l)) 0); [lia|].
    rewrite Hlast. cbn [bind].
    rewrite reshape_ok; [reflexivity | exact Hnn |].
    unfold size. cbn [data]. rewrite length_app, length_replicate. lia.
Qed.

(** X6: without raw bytes, a value list of exactly the declared element
    count is decoded as it is: the array has the declared shape and the
    values of the list, in order, with nothing added. *)
Theorem decode_exact_list (tensor : TensorProto) (l : list item) :
  tensor_pb2.tensor_content tensor = [] ->
  value_list tensor = Some l ->
  forallb (fun d => 0 <=? d) (tensor_pb2.tensor_shape tensor) = true ->
  Z.of_nat (length l) = prod (tensor_pb2.tensor_shape tensor) ->
  prod (tensor_pb2.tensor_shape tensor) < 2 ^ 63 ->
  exists t,
    get_np_dtype (tensor_pb2.dtype tensor) = Ok t /\
    make_ndarray_from_tensor tensor =
      Ok {| dtype := t; shape := tensor_pb2.tensor_shape tensor; data := l; base := None |}.
Proof.
  intros Hc Hl Hnn Hlen Hmax.
  destruct (decode_value_list _ _ Hc Hl) as (t & Ht & Hd).
  exists t. split; [exact Ht|]. rewrite Hd.
  destruct (last l) as [x|] eqn:Hlast.
  - rewrite (pad_and_reshape_fill t l x) by (try assumption; lia).
    rewrite Hlen, Z.sub_diag. cbn [Z.to_nat replicate]. now rewrite app_nil_r.
  - apply last_None in Hlast. subst l. simpl in Hlen.
    unfold pad_and_reshape, zeros. cbn [size data length Z.of_nat Z.eqb].
    rewrite (no_negative _ Hnn 0) by lia. now rewrite <- Hlen.
Qed.

Lemma decode_exact_list_witness :
  exists t,
    get_np_dtype DT_FLOAT = Ok t /\
    make_ndarray_from_tensor
      (tensor_pb2.mk_TensorProto DT_FLOAT [2; 1] [] [1065353216; 1073741824] [] [] [] [])
    = Ok {| dtype := t; shape := [2; 1];
            data := [Num 1065353216; Num 1073741824]; base := None |}.
Proof.
  apply (decode_exact_list
           (tensor_pb2.mk_TensorProto DT_FLOAT [2; 1] [] [1065353216; 1073741824] [] [] [] [])
           [Num 1065353216; Num 1073741824]); reflexivity.
Defined.

Lemma last_app_replicate {A} (l : list A) x k :
  last l = Some x -> last (l ++ replicate k x) = Some x.
Proof.
  intros H. destruct k as [|k]; [now rewrite app_nil_r|].
  rewrite last_app. replace (S k) with (k + 1)%nat by lia.
  rewrite replicate_add. cbn [replicate]. now rewrite last_snoc.
Qed.

(** X7: padding hides truncation.  Two tensors without raw bytes, of the
    same type and shape, whose value lists differ only in that one has
    lost some trailing copies of its last value, decode to the same
    array. *)
Theorem decode_padding_masks_truncation
  (tensor1 tensor2 : TensorProto) (l : list item) (x : item) (k : nat) :
  tensor_pb2.tensor_content tensor1 = [] ->
  tensor_pb2.tensor_content tensor2 = [] ->
  tensor_pb2.dtype tensor1 = tensor_pb2.dtype tensor2 ->
  tensor_pb2.tensor_shape tensor1 = tensor_pb2.tensor_shape tensor2 ->
  value_list tensor1 = Some l ->
  value_list tensor2 = Some (l ++ replicate k x) ->
  last l = Some x ->
  forallb (fun d => 0 <=? d) (tensor_pb2.tensor_shape tensor1) = true ->
  Z.of_nat (length l + k) <= prod (tensor_pb2.tensor_shape tensor1) < 2 ^ 63 ->
  make_ndarray_from_tensor tensor1 = make_ndarray_from_tensor tensor2.
Proof.
  intros Hc1 Hc2 Hdt Hsh Hl1 Hl2 Hlast Hnn [Hle Hmax].
  destruct (decode_value_list _ _ Hc1 Hl1) as (t1 & Ht1 & Hd1).
  destruct (decode_value_list _ _ Hc2 Hl2) as (t2 & Ht2 & Hd2).
  assert (t1 = t2) by (rewrite Hdt in Ht1; congruence). subst t2.
  rewrite Hd1, Hd2, <- Hsh.
  rewrite (pad_and_reshape_fill t1 l x) by (try assumption; lia).
  rewrite (pad_and_reshape_fill t1 (l ++ replicate k x) x);
    [| now apply last_app_replicate | exact Hnn
     | rewrite length_app, length_replicate; lia].
  f_equal. f_equal. rewrite <- app_assoc, <- replicate_add. do 2 f_equal.
  rewrite length_app, length_replicate. lia.
Qed.

Lemma decode_padding_masks_truncation_witness :
  make_ndarray_from_tensor
    (tensor_pb2.mk_TensorProto DT_INT32 [2; 2] [] [] [] [1; 2] [] [])
  = make_ndarray_from_tensor
      (tensor_pb2.mk_TensorProto DT_INT32 [2; 2] [] [] [] [1; 2; 2; 2] [] []).
Proof.
  apply (decode_padding_masks_truncation
           (tensor_pb2.mk_TensorProto DT_INT32 [2; 2] [] [] [] [1; 2] [] [])
           (tensor_pb2.mk_TensorProto DT_INT32 [2; 2] [] [] [] [1; 2; 2; 2] [] [])
           [Num 1; Num 2] (Num 2) 2); try reflexivity.
  simpl. lia.
Defined.

(** ** The encoder on strings, by rank *)

Definition is_nil {A} (l : list A) : bool :=
  match l with [] => true | _ => false end.

Lemma collect_vectors_flat_bytes (bs : list (list byte)) acc :
  collect_vectors (map OBytes bs) acc =
    if forallb is_nil bs then Ok acc else Raise InvalidStringElement.
Proof.
  induction bs as [|s r IH]; [reflexivity|].
  cbn [map collect_vectors iter_obj bind forallb].
  destruct s as [|b s]; cbn [map collect_bytes isinstance_bytes is_nil andb bind].
  - exact IH.
  - reflexivity.
Qed.

(** X8: the string loop fits two-dimensional arrays only.  For an
    array whose type resolves to the byte-string type: a 0-d array is not
    iterable; an array of three or more dimensions with non-empty first
    two is rejected as holding a non-bytes element, whatever it holds; a
    flat array of [bytes] is rejected as soon as one of them is not
    empty, and a flat array of empty [bytes] is encoded with no value at
    all. *)
Theorem encode_strings_by_rank (a : ndarray) :
  get_tf_type (dtype a) = Ok DT_STRING ->
  (shape a = [] -> make_tensor_proto a = Raise NotIterable)
  /\ (forall d0 d1 d2 rest,
        shape a = d0 :: d1 :: d2 :: rest -> 0 < d0 -> 0 < d1 ->
        make_tensor_proto a = Raise InvalidStringElement)
  /\ (forall n bs,
        shape a = [n] -> data a = map PyBytes bs ->
        make_tensor_proto a =
          if forallb is_nil bs
          then Ok (mk_TensorProto DT_STRING [n] [] [] [] [] [] [])
          else Raise InvalidStringElement).
Proof.
  intros Ht.
  assert (Hm : make_tensor_proto a =
               (vectors <- iter_array a;;
                string_val <- collect_vectors vectors [];;
                Ok (mk_TensorProto DT_STRING (shape a) [] [] [] [] [] string_val))).
  { unfold make_tensor_proto. rewrite prefer_32bit_string by exact Ht.
    rewrite Ht. cbn [bind]. now rewrite bool_decide_eq_true_2 by reflexivity. }
  rewrite Hm. split; [|split].
  - intros Hs. unfold iter_array. now rewrite Hs.
  - intros d0 d1 d2 rest Hs H0 H1. unfold iter_array. rewrite Hs.
    destruct (Z.to_nat d0) as [|m0] eqn:E0; [lia|].
    cbn [seq map bind collect_vectors iter_obj]. unfold iter_array. cbn [shape].
    destruct (Z.to_nat d1) as [|m1] eqn:E1; [lia|].
    reflexivity.
  - intros n bs Hs Hd. unfold iter_array. rewrite Hs, Hd. cbn [bind].
    rewrite map_map. cbn [obj_of_item].
    change (map (fun x => OBytes x) bs) with (map OBytes bs).
    rewrite collect_vectors_flat_bytes.
    destruct (forallb is_nil bs); reflexivity.
Qed.

Lemma encode_strings_by_rank_witness :
  make_tensor_proto (mk_ndarray bytes_ [] [PyBytes ["x"%byte]] None) = Raise NotIterable
  /\ make_tensor_proto
       (mk_ndarray bytes_ [1; 1; 1] [PyBytes ["x"%byte]] None) = Raise InvalidStringElement.
Proof.
  split.
  - destruct (encode_strings_by_rank (mk_ndarray bytes_ [] [PyBytes ["x"%byte]] None))
      as (H & _); [reflexivity|].
    apply H. reflexivity.
  - destruct (encode_strings_by_rank (mk_ndarray bytes_ [1; 1; 1] [PyBytes ["x"%byte]] None))
      as (_ & H & _); [reflexivity|].
    apply (H 1 1 1 []); [reflexivity | lia | lia].
Defined.

(** ** From raw bytes to an array and back *)

Lemma LE_encode_shift n v k : LE.encode n (v + k * 256 ^ Z.of_nat n) = LE.encode n v.
Proof.
  revert v k. induction n as [|n IH]; intros v k; [reflexivity|].
  cbn [LE.encode]. rewrite Nat2Z.inj_succ, Z.pow_succ_r by lia.
  f_equal.
  - unfold LE.byte_of_Z.
    replace (v + k * (256 * 256 ^ Z.of_nat n)) with (v + (k * 256 ^ Z.of_nat n) * 256) by lia.
    now rewrite Z.mod_add by lia.
  - replace (v + k * (256 * 256 ^ Z.of_nat n)) with (v + (k * 256 ^ Z.of_nat n) * 256) by lia.
    rewrite Z.div_add by lia. apply IH.
Qed.

Lemma item_bytes_of_bytes t (bs : list byte) :
  item_bytes (length bs) (item_of_bytes t bs) = bs.
Proof.
  unfold item_of_bytes, item_bytes.
  destruct (is_signed t); [|apply LE.encode_decode].
  unfold to_signed. destruct (_ <? _); [apply LE.encode_decode|].
  rewrite <- pow256.
  replace (LE.decode bs - 256 ^ Z.of_nat (length bs))
    with (LE.decode bs + (-1) * 256 ^ Z.of_nat (length bs)) by lia.
  rewrite LE_encode_shift. apply LE.encode_decode.
Qed.

Lemma concat_chunks {A} (n : nat) (fuel : nat) :
  (0 < n)%nat ->
  forall l : list A, (length l <= fuel)%nat -> concat (chunks fuel n l) = l.
Proof.
  intros Hn. induction fuel as [|fuel IH]; intros l Hl.
  - destruct l; [reflexivity | simpl in Hl; lia].
  - destruct l as [|x l]; [reflexivity|].
    cbn [chunks concat]. rewrite IH.
    + apply take_drop.
    + rewrite length_drop. simpl in *. lia.
Qed.

Lemma chunks_lengths {A} (n k : nat) :
  (0 < n)%nat ->
  forall (fuel : nat) (l : list A),
    length l = (n * k)%nat -> Forall (fun c => length c = n) (chunks fuel n l).
Proof.
  intros Hn. induction k as [|k IH]; intros fuel l Hl.
  - rewrite Nat.mul_0_r in Hl. apply length_zero_iff_nil in Hl. subst.
    destruct fuel; constructor.
  - destruct fuel as [|fuel]; [constructor|].
    destruct l as [|x l]; [constructor|].
    cbn [chunks]. constructor.
    + rewrite length_take. lia.
    + apply IH. rewrite length_drop, Hl. lia.
Qed.

(** Writing out the array read from a buffer gives the buffer back. *)
Lemma tobytes_frombuffer t n (buf : list byte) k shp bse :
  itemsize t = Some n -> length buf = (n * k)%nat ->
  tobytes {| dtype := t; shape := shp;
             data := map (item_of_bytes t) (chunks (length buf) n buf); base := bse |} = buf.
Proof.
  intros Hn Hl. pose proof (itemsize_pos _ _ Hn) as Hpos.
  unfold tobytes. cbn [dtype data]. rewrite Hn.
  rewrite flat_map_concat_map, map_map.
  rewrite <- (concat_chunks n (length buf) Hpos buf (le_n _)) at 3.
  f_equal. rewrite <- (map_id (chunks (length buf) n buf)) at 2.
  apply map_ext_in. intros c Hc.
  pose proof (chunks_lengths n k Hpos (length buf) buf Hl) as Hall.
  rewrite List.Forall_forall in Hall. rewrite <- (Hall c Hc) at 1.
  apply item_bytes_of_bytes.
Qed.

(** X9: decoding a well-sized raw-bytes tensor and encoding the array
    again gives back the same wire type, shape and bytes, for every
    fixed-width type the encoder does not narrow (all but float64 and
    int64). *)
Theorem encode_decode_raw_bytes (tensor : TensorProto) (t : np_type) (n : nat) :
  tensor_pb2.tensor_content tensor <> [] ->
  get_np_dtype (tensor_pb2.dtype tensor) = Ok t ->
  itemsize t = Some n ->
  t <> float64 -> t <> int64 ->
  forallb (fun d => 0 <=? d) (tensor_pb2.tensor_shape tensor) = true ->
  Z.of_nat (length (tensor_pb2.tensor_content tensor))
  = Z.of_nat n * prod (tensor_pb2.tensor_shape tensor) ->
  exists a,
    make_ndarray_from_tensor tensor = Ok a /\
    make_tensor_proto a =
      Ok (mk_TensorProto (tensor_pb2.dtype tensor) (tensor_pb2.tensor_shape tensor)
            (tensor_pb2.tensor_content tensor) [] [] [] [] []).
Proof.
  intros Hne Ht Hn Hf Hi Hnn Hlen.
  pose proof (itemsize_pos _ _ Hn) as Hpos.
  pose proof (prod_nonneg _ Hnn) as Hp.
  set (content := tensor_pb2.tensor_content tensor) in *.
  set (dims := tensor_pb2.tensor_shape tensor) in *.
  assert (Hl : length content = (n * Z.to_nat (prod dims))%nat) by nia.
  exists {| dtype := t; shape := dims;
            data := map (item_of_bytes t) (chunks (length content) n content);
            base := None |}.
  split.
  - unfold make_ndarray_from_tensor. rewrite Ht. cbn [bind]. fold content dims.
    destruct content as [|c cs] eqn:Ec; [congruence|]. rewrite <- Ec in *.
    unfold frombuffer. rewrite Hn, Hlen.
    rewrite Z.mul_comm, Z.mod_mul, Z.eqb_refl by lia. cbn [bind].
    rewrite reshape_ok; [reflexivity | exact Hnn |].
    unfold size, copy. cbn [data]. rewrite length_map.
    rewrite (length_chunks n (Z.to_nat (prod dims))); [lia | exact Hpos | exact Hl | nia].
  - unfold make_tensor_proto, prefer_32bit. cbn [dtype].
    rewrite !bool_decide_eq_false_2 by assumption. cbn [dtype shape].
    assert (Htf : get_tf_type t = Ok (tensor_pb2.dtype tensor)
                  /\ tensor_pb2.dtype tensor <> DT_STRING).
    { destruct (tensor_pb2.dtype tensor); try discriminate Ht;
        inversion Ht; subst t; try discriminate Hn; split; try reflexivity; discriminate. }
    destruct Htf as (Htf & Hns). rewrite Htf. cbn [bind].
    rewrite bool_decide_eq_false_2 by exact Hns.
    now rewrite (tobytes_frombuffer t n content (Z.to_nat (prod dims)) dims None Hn Hl).
Qed.

Lemma encode_decode_raw_bytes_witness :
  exists a,
    make_ndarray_from_tensor
      (tensor_pb2.mk_TensorProto DT_INT16 [2; 1] ["001"; "000"; "255"; "255"]%byte
         [] [] [] [] []) = Ok a /\
    make_tensor_proto a =
      Ok (mk_TensorProto DT_INT16 [2; 1] ["001"; "000"; "255"; "255"]%byte [] [] [] [] []).
Proof.
  apply (encode_decode_raw_bytes
           (tensor_pb2.mk_TensorProto DT_INT16 [2; 1] ["001"; "000"; "255"; "255"]%byte
              [] [] [] [] []) int16 2%nat); try reflexivity; discriminate.
Defined.

(** ** What the assembled matrix holds *)

(** The matrix [np.empty] hands to the loop. *)
Definition empty_matrix (uninit : nat -> item) (ns nf : Z) (samples_dtype : option np_type)
  : ndarray :=
  {| dtype := default float64 samples_dtype; shape := [ns; nf];
     data := map uninit (seq 0 (Z.to_nat (ns * nf))); base := None |}.

Lemma good_feature_unique request_inputs ns name a1 a2 :
  good_feature request_inputs ns name a1 -> good_feature request_inputs ns name a2 ->
  a1 = a2.
Proof.
  intros (t1 & Hl1 & _ & Hd1 & _) (t2 & Hl2 & _ & Hd2 & _). congruence.
Qed.

Section AssemblerMatrix.

Variable convert : np_type -> np_type -> item -> result item.

Lemma setitem_column_length samples i v m :
  setitem_column convert samples i v = Ok m -> length (data m) = length (data samples).
Proof.
  unfold setitem_column. intros H.
  destruct (shape samples) as [|ns [|nf [|? ?]]]; try discriminate.
  destruct (nf <=? Z.of_nat i); [discriminate|].
  destruct (if size v =? ns then _ else _) as [vals|]; [|discriminate]. cbn [bind] in H.
  destruct (mapM _ vals) as [vals'|]; [|discriminate]. cbn [bind] in H.
  inversion H; subst. cbn [data]. apply length_write_column.
Qed.

Lemma parse_features_length request_inputs ns names :
  forall samples i m,
    parse_features convert request_inputs ns samples i names = Ok m ->
    length (data m) = length (data samples).
Proof.
  induction names as [|n r IH]; intros samples i m H.
  - cbn in H. now inversion H.
  - cbn [parse_features] in H.
    destruct (parse_feature convert request_inputs ns samples i n) as [s|] eqn:Hf;
      [|discriminate].
    cbn [bind] in H. apply IH in H. rewrite H.
    unfold parse_feature in Hf.
    destruct (check_request_valid_length _ _ _); [|discriminate]. cbn [bind] in Hf.
    destruct (getitem _ _); [|discriminate]. cbn [bind] in Hf.
    destruct (make_ndarray_from_tensor _); [|discriminate]. cbn [bind] in Hf.
    destruct (check_array_shape _); [|discriminate]. cbn [bind] in Hf.
    destruct (reshape _ _); [|discriminate]. cbn [bind] in Hf.
    now apply setitem_column_length in Hf.
Qed.

(** On good features, [parse_sample] is the loop run on the fresh matrix. *)
Lemma parse_sample_good_eq uninit request_inputs names nb_features samples_dtype ns :
  names <> [] -> 0 <= nb_features ->
  (forall name, In name names -> exists a, good_feature request_inputs ns name a) ->
  0 <= ns /\
  parse_sample convert uninit request_inputs names nb_features samples_dtype =
    parse_features convert request_inputs ns
      (empty_matrix uninit ns nb_features samples_dtype) 0 names.
Proof.
  intros Hne Hnf Hgood.
  destruct names as [|n0 rest]; [congruence|].
  destruct (Hgood n0) as (a0 & Hg0); [now left|].
  pose proof (good_feature_size _ _ _ _ Hg0) as Hsz0.
  assert (Hns : 0 <= ns) by (unfold size in Hsz0; lia).
  split; [exact Hns|].
  destruct Hg0 as (t0 & Hl0 & Hd0 & _ & _).
  unfold parse_sample.
  rewrite forM_check_exists.
  2:{ intros name Hn. destruct (Hgood name Hn) as (a & (t & Hl & _)). eauto. }
  cbn [bind].
  unfold first_dim0, getitem. cbn [bind]. rewrite Hl0. cbn [bind]. rewrite Hd0. cbn [bind].
  unfold empty2.
  destruct (Z.ltb_spec ns 0); [lia|].
  destruct (Z.ltb_spec nb_features 0); [lia|]. reflexivity.
Qed.

Lemma empty_matrix_column uninit ns nf dt j :
  0 <= ns -> (j < Z.to_nat nf)%nat ->
  column (empty_matrix uninit ns nf dt) j =
    map (fun r => Some (uninit (cell (Z.to_nat nf) r j))) (seq 0 (Z.to_nat ns)).
Proof.
  intros Hns Hj. unfold column, empty_matrix. cbn [shape data].
  apply map_ext_in. intros r Hr. apply in_seq in Hr.
  rewrite list_lookup_fmap, lookup_seq_lt; [reflexivity|].
  rewrite Z2Nat.inj_mul by lia. unfold cell. nia.
Qed.

(** X10: when [nb_features] exceeds the number of names, the columns
    beyond the named ones are never written: the returned matrix holds
    there whatever the memory [np.empty] handed out held. *)
Theorem parse_sample_spare_columns
  (uninit : nat -> item) (request_inputs : gmap string TensorProto)
  (features_names : list string) (nb_features : Z) (samples_dtype : option np_type)
  (nb_samples : Z) :
  features_names <> [] ->
  Z.of_nat (length features_names) <= nb_features ->
  (forall name, In name features_names ->
     exists a vals,
       good_feature request_inputs nb_samples name a /\
       mapM (setitem_cast convert (default float64 samples_dtype) (dtype a)) (data a)
       = Ok vals) ->
  exists m,
    parse_sample convert uninit request_inputs features_names nb_features samples_dtype
    = Ok m /\
    forall j, (length features_names <= j < Z.to_nat nb_features)%nat ->
      column m j =
        map (fun r => Some (uninit (cell (Z.to_nat nb_features) r j)))
            (seq 0 (Z.to_nat nb_samples)).
Proof.
  intros Hne Hnf Hgood.
  destruct (parse_sample_good_eq uninit request_inputs features_names nb_features
              samples_dtype nb_samples Hne ltac:(lia)) as (Hns & Heq).
  { intros name Hn. destruct (Hgood name Hn) as (a & _ & Hg & _). eauto. }
  destruct (parse_features_good convert request_inputs nb_samples nb_features features_names
              (empty_matrix uninit nb_samples nb_features samples_dtype) 0%nat)
    as (m & Hm & _ & _ & _ & _ & Hkeep).
  - reflexivity.
  - exact Hns.
  - exact Hnf.
  - cbn [empty_matrix data]. rewrite length_map, length_seq. apply Z2Nat.inj_mul; lia.
  - exact Hgood.
  - exists m. split; [now rewrite Heq|].
    intros j Hj. rewrite Hkeep by lia. apply empty_matrix_column; [exact Hns | lia].
Qed.

(** X11: with as many names as columns, the returned matrix is fully
    determined by the request: it does not depend on what the memory
    [np.empty] handed out held, so no cell is left unwritten. *)
Theorem parse_sample_fully_written
  (uninit1 uninit2 : nat -> item) (request_inputs : gmap string TensorProto)
  (features_names : list string) (nb_features : Z) (samples_dtype : option np_type)
  (nb_samples : Z) :
  features_names <> [] ->
  Z.of_nat (length features_names) = nb_features ->
  (forall name, In name features_names ->
     exists a vals,
       good_feature request_inputs nb_samples name a /\
       mapM (setitem_cast convert (default float64 samples_dtype) (dtype a)) (data a)
       = Ok vals) ->
  parse_sample convert uninit1 request_inputs features_names nb_features samples_dtype
  = parse_sample convert uninit2 request_inputs features_names nb_features samples_dtype.
Proof.
  intros Hne Hnf Hgood.
  assert (Hg : forall name, In name features_names ->
                 exists a, good_feature request_inputs nb_samples name a).
  { intros name Hn. destruct (Hgood name Hn) as (a & _ & Hg & _). eauto. }
  destruct (parse_sample_good_eq uninit1 request_inputs features_names nb_features
              samples_dtype nb_samples Hne ltac:(lia) Hg) as (Hns & Heq1).
  destruct (parse_sample_good_eq uninit2 request_inputs features_names nb_features
              samples_dtype nb_samples Hne ltac:(lia) Hg) as (_ & Heq2).
  rewrite Heq1, Heq2.
  set (s1 := empty_matrix uninit1 nb_samples nb_features samples_dtype).
  set (s2 := empty_matrix uninit2 nb_samples nb_features samples_dtype).
  assert (Hlen : forall u, length (data (empty_matrix u nb_samples nb_features samples_dtype))
                           = (Z.to_nat nb_samples * Z.to_nat nb_features)%nat).
  { intros u. cbn [empty_matrix data]. rewrite length_map, length_seq.
    apply Z2Nat.inj_mul; lia. }
  destruct (parse_features_good convert request_inputs nb_samples nb_features features_names
              s1 0%nat eq_refl Hns ltac:(simpl; lia) (Hlen uninit1) Hgood)
    as (m1 & Hm1 & Hdt1 & Hsh1 & Hb1 & Hcols1 & _).
  destruct (parse_features_good convert request_inputs nb_samples nb_features features_names
              s2 0%nat eq_refl Hns ltac:(simpl; lia) (Hlen uninit2) Hgood)
    as (m2 & Hm2 & Hdt2 & Hsh2 & Hb2 & Hcols2 & _).
  rewrite Hm1, Hm2. f_equal.
  pose proof (parse_features_length _ _ _ _ _ _ Hm1) as Hl1.
  pose proof (parse_features_length _ _ _ _ _ _ Hm2) as Hl2.
  pose proof (Hlen uninit1) as E1. pose proof (Hlen uninit2) as E2.
  fold s1 in E1. fold s2 in E2. rewrite E1 in Hl1. rewrite E2 in Hl2.
  assert (Hdata : data m1 = data m2).
  { apply list_eq. intros idx.
    destruct (Nat.lt_ge_cases idx (Z.to_nat nb_samples * Z.to_nat nb_features)) as [Hlt|Hge].
    - set (nf := Z.to_nat nb_features) in *.
      assert (Hnf0 : (0 < nf)%nat) by (destruct nf; [lia | lia]).
      set (r := (idx / nf)%nat). set (j := (idx mod nf)%nat).
      assert (Hj : (j < nf)%nat) by (apply Nat.mod_upper_bound; lia).
      assert (Hidx : idx = cell nf r j).
      { unfold cell, r, j. rewrite Nat.mul_comm. apply Nat.div_mod_eq. }
      assert (Hr : (r < Z.to_nat nb_samples)%nat).
      { unfold r. apply Nat.Div0.div_lt_upper_bound. lia. }
      destruct (lookup_lt_is_Some_2 features_names j ltac:(lia)) as (name & Hname).
      destruct (Hcols1 j name Hname) as (a1 & v1 & Hg1 & Hv1 & Hc1).
      destruct (Hcols2 j name Hname) as (a2 & v2 & Hg2 & Hv2 & Hc2).
      pose proof (good_feature_unique _ _ _ _ _ Hg1 Hg2). subst a2.
      assert (v1 = v2) by (cbn [s1 s2 empty_matrix dtype] in Hv1, Hv2; congruence). subst v2.
      simpl in Hc1, Hc2. rewrite <- Hc2 in Hc1.
      rewrite (column_eq m1 nb_samples nb_features j Hsh1) in Hc1.
      rewrite (column_eq m2 nb_samples nb_features j Hsh2) in Hc1.
      apply (f_equal (fun l => l !! r)) in Hc1.
      rewrite !list_lookup_fmap, lookup_seq_lt in Hc1 by exact Hr.
      cbn in Hc1. inversion Hc1 as [Hc]. fold nf in Hc. rewrite Hidx. exact Hc.
    - rewrite !lookup_ge_None_2 by lia. reflexivity. }
  destruct m1, m2. cbn in *. congruence.
Qed.

End AssemblerMatrix.

Lemma parse_sample_spare_columns_witness :
  exists m,
    parse_sample convert_none zero_memory request_ab ["a"; "b"] 3 None = Ok m /\
    forall j, (length ["a"; "b"] <= j < Z.to_nat 3)%nat ->
      column m j =
        map (fun r => Some (zero_memory (cell (Z.to_nat 3) r j))) (seq 0 (Z.to_nat 5)).
Proof.
  apply (parse_sample_spare_columns convert_none zero_memory request_ab ["a"; "b"] 3 None 5).
  - discriminate.
  - simpl. lia.
  - intros name [<- | [<- | []]].
    + exists (mk_ndarray float64 [5; 1] (map Num one_to_five) None), (map Num one_to_five).
      split; [|reflexivity].
      exists (doubles [5; 1] one_to_five). repeat split; vm_compute; reflexivity.
    + exists (mk_ndarray float64 [5; 1] (map Num six_to_ten) None), (map Num six_to_ten).
      split; [|reflexivity].
      exists (doubles [5; 1] six_to_ten). repeat split; vm_compute; reflexivity.
Defined.

Lemma parse_sample_fully_written_witness :
  parse_sample convert_none zero_memory request_ab ["a"; "b"] 2 None
  = parse_sample convert_none (fun i => Num (Z.of_nat i)) request_ab ["a"; "b"] 2 None.
Proof.
  apply (parse_sample_fully_written convert_none zero_memory (fun i => Num (Z.of_nat i))
           request_ab ["a"; "b"] 2 None 5).
  - discriminate.
  - reflexivity.
  - intros name [<- | [<- | []]].
    + exists (mk_ndarray float64 [5; 1] (map Num one_to_five) None), (map Num one_to_five).
      split; [|reflexivity].
      exists (doubles [5; 1] one_to_five). repeat split; vm_compute; reflexivity.
    + exists (mk_ndarray float64 [5; 1] (map Num six_to_ten) None), (map Num six_to_ten).
      split; [|reflexivity].
      exists (doubles [5; 1] six_to_ten). repeat split; vm_compute; reflexivity.
Defined.

(** X12: requests the validators do not cover.  With every name
    present, [parse_sample] raises [IndexError], not a
    [PythieServingException], when the list of names is empty or when the
    first feature's tensor declares no dimension, and numpy's
    [ValueError] when the first feature's first dimension or
    [nb_features] is negative. *)
Theorem parse_sample_unchecked_requests
  (convert : np_type -> np_type -> item -> result item) (uninit : nat -> item)
  (request_inputs : gmap string TensorProto) (features_names : list string)
  (nb_features : Z) (samples_dtype : option np_type) :
  (forall n, In n features_names -> is_Some (request_inputs !! n)) ->
  (features_names = [] ->
   parse_sample convert uninit request_inputs features_names nb_features samples_dtype
   = Raise IndexError)
  /\ (forall n0 rest tensor,
        features_names = n0 :: rest -> request_inputs !! n0 = Some tensor ->
        tensor_pb2.tensor_shape tensor = [] ->
        parse_sample convert uninit request_inputs features_names nb_features samples_dtype
        = Raise IndexError)
  /\ (forall n0 rest tensor d dims,
        features_names = n0 :: rest -> request_inputs !! n0 = Some tensor ->
        tensor_pb2.tensor_shape tensor = d :: dims ->
        d < 0 \/ nb_features < 0 ->
        parse_sample convert uninit request_inputs features_names nb_features samples_dtype
        = Raise ValueError_negative_dim).
Proof.
  intros Hall. unfold parse_sample. rewrite forM_check_exists by exact Hall. cbn [bind].
  split; [|split].
  - intros ->. reflexivity.
  - intros n0 rest tensor -> Hl Hs. unfold first_dim0, getitem, dim0_size. cbn [bind].
    rewrite Hl. cbn [bind]. now rewrite Hs.
  - intros n0 rest tensor d dims -> Hl Hs Hneg.
    unfold first_dim0, getitem, dim0_size. cbn [bind].
    rewrite Hl. cbn [bind]. rewrite Hs. cbn [bind]. unfold empty2.
    destruct (Z.ltb_spec d 0); [reflexivity|].
    destruct (Z.ltb_spec nb_features 0); [reflexivity | lia].
Qed.

Lemma parse_sample_unchecked_requests_witness :
  parse_sample convert_none zero_memory request_ab [] 2 None = Raise IndexError
  /\ parse_sample convert_none zero_memory request_ab ["a"; "b"] (-1) None
     = Raise ValueError_negative_dim.
Proof.
  split.
  - destruct (parse_sample_unchecked_requests convert_none zero_memory request_ab [] 2 None)
      as (H & _); [intros n [] | now apply H].
  - destruct (parse_sample_unchecked_requests convert_none zero_memory request_ab
                ["a"; "b"] (-1) None) as (_ & _ & H).
    + intros n [<- | [<- | []]]; eexists; vm_compute; reflexivity.
    + apply (H "a" ["b"] (doubles [5; 1] one_to_five) 5 [1]); try reflexivity. right. lia.
Defined.

(** ** CSV conversion types *)

(** The three conversion functions of [_CSV_TYPE]: Python's [int], the
    UTF-8 encoder [lambda x: bytes(x, "utf-8")], and Python's [bool]. *)
Inductive csv_converter : Type := csv_int | csv_str | csv_bool.

Definition _CSV_TYPE : list (string * csv_converter) :=
  [ ("int", csv_int); ("str", csv_str); ("bool", csv_bool) ].

(** [get_csv_type(type_mapping)]: the dict comprehension looks every
    type name up; a [KeyError] on any of them becomes the [TypeError]
    "Could not infer conversion type", modelled by [None]. *)
Definition get_csv_type (type_mapping : gmap string string)
  : option (gmap string csv_converter) :=
  if decide (map_Forall (fun _ data_type => is_Some (dict_get _CSV_TYPE data_type))
                        type_mapping)
  then Some (omap (dict_get _CSV_TYPE) type_mapping)
  else None.

Lemma csv_type_known (data_type : string) :
  is_Some (dict_get _CSV_TYPE data_type) <->
  data_type = "int" \/ data_type = "str" \/ data_type = "bool".
Proof.
  destruct (decide (data_type = "int")) as [-> | N1];
    [split; [auto | intros _; eexists; reflexivity]|].
  destruct (decide (data_type = "str")) as [-> | N2];
    [split; [auto | intros _; eexists; reflexivity]|].
  destruct (decide (data_type = "bool")) as [-> | N3];
    [split; [auto | intros _; eexists; reflexivity]|].
  unfold dict_get, _CSV_TYPE. cbn [find fst snd].
  rewrite !bool_decide_eq_false_2 by congruence. cbn.
  split; [intros [x Hx]; discriminate | tauto].
Qed.

(** X13: [get_csv_type] fails exactly when some feature's type name is
    not one of "int", "str" and "bool": one unknown name fails the whole
    call.  When it succeeds, the result has the features of the mapping
    and no other, each bound to the conversion function of its type
    name. *)
Theorem get_csv_type_spec (type_mapping : gmap string string) :
  (get_csv_type type_mapping = None <->
   exists feature_name data_type,
     type_mapping !! feature_name = Some data_type /\
     data_type <> "int" /\ data_type <> "str" /\ data_type <> "bool")
  /\ (forall r, get_csv_type type_mapping = Some r ->
        forall feature_name,
          r !! feature_name = type_mapping !! feature_name ≫= dict_get _CSV_TYPE
          /\ (is_Some (r !! feature_name) <-> is_Some (type_mapping !! feature_name))).
Proof.
  unfold get_csv_type. split.
  - destruct (decide _) as [Hall | Hnot].
    + split; [discriminate|]. intros (f & dt & Hf & H1 & H2 & H3). exfalso.
      specialize (Hall f dt Hf). apply csv_type_known in Hall. tauto.
    + split; [|reflexivity]. intros _.
      apply map_not_Forall in Hnot; [|tc_solve].
      destruct Hnot as (f & dt & Hf & Hdt). exists f, dt. split; [exact Hf|].
      rewrite csv_type_known in Hdt. tauto.
  - intros r H. destruct (decide _) as [Hall | ]; [|discriminate].
    inversion H; subst r. intros f. rewrite lookup_omap. split; [reflexivity|].
    destruct (type_mapping !! f) as [dt|] eqn:Hf; cbn.
    + split; [eauto|]. intros _. exact (Hall f dt Hf).
    + split; intros [x Hx]; discriminate.
Qed.

(** Type names are matched exactly: "Str" is unknown, and fails the call
    although "age" has a known type. *)
Lemma get_csv_type_spec_witness :
  get_csv_type (<["age" := "int"]> (<["name" := "Str"]> ∅)) = None.
Proof.
  apply (get_csv_type_spec (<["age" := "int"]> (<["name" := "Str"]> ∅))).
  exists "name", "Str". split; [vm_compute; reflexivity|].
  repeat split; discriminate.
Defined.

Example get_csv_type_known :
  get_csv_type (<["age" := "int"]> (<["name" := "str"]> ∅))
  = Some (<["age" := csv_int]> (<["name" := csv_str]> ∅)).
Proof. vm_compute. reflexivity. Qed.

(** ** Where the encoder and the decoder fail *)

Lemma reshape_error a dims e : reshape a dims = Raise e -> e = ValueError_reshape.
Proof.
  unfold reshape. destruct (existsb _ _); [congruence|].
  destruct (_ - _)%nat as [|[|k]]; [| |congruence].
  - destruct (_ =? _); congruence.
  - destruct (_ || _); congruence.
Qed.

(** X15: the decoder raises UnknownLogicalType exactly when the
    tensor's wire type has no registry entry, and then it does so whatever
    the payload holds; a byte-string tensor that carries raw bytes is
    always refused by [np.frombuffer]. *)
Theorem decode_unknown_type_iff (tensor : TensorProto) :
  (make_ndarray_from_tensor tensor = Raise UnknownLogicalType <->
   dict_get _TF_TO_NP (tensor_pb2.dtype tensor) = None)
  /\ (tensor_pb2.dtype tensor = DT_STRING ->
      tensor_pb2.tensor_content tensor <> [] ->
      make_ndarray_from_tensor tensor = Raise ValueError_frombuffer).
Proof.
  split.
  - unfold make_ndarray_from_tensor, get_np_dtype.
    destruct (dict_get _TF_TO_NP (tensor_pb2.dtype tensor)) as [nt|] eqn:E.
    + split; [|discriminate]. cbn [bind]. intros H. exfalso.
      destruct (tensor_pb2.tensor_content tensor) as [|c cs].
      * unfold select_values in H.
        assert (Hp : forall values, pad_and_reshape values (tensor_pb2.tensor_shape tensor)
                                      (np_dtype nt) <> Raise UnknownLogicalType).
        { intros values Hv. unfold pad_and_reshape in Hv.
          destruct (size values =? 0).
          - unfold zeros in Hv. destruct (existsb _ _); discriminate.
          - destruct (negb _).
            + unfold pad_edge in Hv. destruct (_ <? 0); [discriminate|].
              destruct (last (data values)).
              * cbn [bind] in Hv. apply reshape_error in Hv. discriminate.
              * destruct (_ =? 0); [|discriminate]. cbn [bind] in Hv.
                apply reshape_error in Hv. discriminate.
            + cbn [bind] in Hv. apply reshape_error in Hv. discriminate. }
        destruct (tensor_pb2.dtype tensor); cbn [bind] in H;
          try discriminate H; now apply Hp in H.
      * unfold frombuffer in H. destruct (itemsize (np_dtype nt)); [|discriminate].
        destruct (_ =? 0); [|discriminate]. cbn [bind] in H.
        apply reshape_error in H. discriminate.
    + split; reflexivity.
  - intros Hs Hne. unfold make_ndarray_from_tensor. rewrite Hs.
    change (get_np_dtype DT_STRING) with (Ok object_). cbn [bind].
    destruct (tensor_pb2.tensor_content tensor); [congruence | reflexivity].
Qed.

Lemma decode_unknown_type_iff_witness :
  make_ndarray_from_tensor
    (tensor_pb2.mk_TensorProto DT_BFLOAT16 [1] ["001"; "002"]%byte [] [] [] [] [])
  = Raise UnknownLogicalType
  /\ make_ndarray_from_tensor
       (tensor_pb2.mk_TensorProto DT_STRING [1] ["120"]%byte [] [] [] [] [["x"%byte]])
     = Raise ValueError_frombuffer.
Proof.
  split.
  - apply (decode_unknown_type_iff
             (tensor_pb2.mk_TensorProto DT_BFLOAT16 [1] ["001"; "002"]%byte [] [] [] [] [])).
    reflexivity.
  - apply (decode_unknown_type_iff
             (tensor_pb2.mk_TensorProto DT_STRING [1] ["120"]%byte [] [] [] [] [["x"%byte]]));
      [reflexivity | discriminate].
Defined.

(** ** A declared dimension of -1 *)

Lemma prod_app (l1 l2 : list Z) : prod (l1 ++ l2) = prod l1 * prod l2.
Proof.
  induction l1 as [|d r IH]; [simpl; destruct (prod l2); reflexivity|].
  change (prod ((d :: r) ++ l2)) with (d * prod (r ++ l2)).
  change (prod (d :: r)) with (d * prod r). rewrite IH. lia.
Qed.

Lemma map_known q (l : list Z) :
  forallb (fun d => 0 <=? d) l = true ->
  map (fun d => if d =? -1 then q else d) l = l.
Proof.
  induction l as [|d r IH]; [reflexivity|]. simpl. intros H.
  apply andb_prop in H as [Hd Hr]. apply Z.leb_le in Hd.
  destruct (Z.eqb_spec d (-1)); [lia|]. f_equal. auto.
Qed.

(** X16: in a tensor without raw bytes, a declared dimension of -1
    (among otherwise non-negative dimensions) always makes the decoder
    raise: [np.zeros] refuses it when the selected value list is empty,
    and otherwise the element count is not positive, so the pad width is
    negative. *)
Theorem decode_unknown_dim_value_list
  (tensor : TensorProto) (l : list item) (pre post : list Z) :
  tensor_pb2.tensor_content tensor = [] ->
  value_list tensor = Some l ->
  tensor_pb2.tensor_shape tensor = pre ++ -1 :: post ->
  forallb (fun d => 0 <=? d) pre = true ->
  forallb (fun d => 0 <=? d) post = true ->
  prod pre * prod post <= 2 ^ 63 ->
  make_ndarray_from_tensor tensor =
    Raise (if is_nil l then ValueError_negative_dim else ValueError_pad).
Proof.
  intros Hc Hl Hs Hpre Hpost Hmax.
  destruct (decode_value_list _ _ Hc Hl) as (t & Ht & Hd).
  rewrite Hd, Hs. clear Hd.
  pose proof (prod_nonneg _ Hpre) as Hp1. pose proof (prod_nonneg _ Hpost) as Hp2.
  unfold pad_and_reshape, size. cbn [data].
  destruct l as [|x l]; cbn [is_nil length].
  - cbn [Z.of_nat Z.eqb]. unfold zeros. rewrite existsb_app. cbn [existsb].
    change (-1 <? 0) with true. cbn [orb]. now rewrite orb_true_r.
  - destruct (Z.eqb_spec (Z.of_nat (S (length l))) 0); [lia|].
    assert (Hprod : prod (pre ++ -1 :: post) = - (prod pre * prod post)).
    { rewrite prod_app. change (prod (-1 :: post)) with (-1 * prod post). lia. }
    assert (Hw : prod_int64 (pre ++ -1 :: post) = - (prod pre * prod post)).
    { unfold prod_int64. rewrite Hprod. apply wrap_signed_small; [lia|].
      change (2 ^ (64 - 1)) with (2 ^ 63). nia. }
    rewrite Hw.
    destruct (Z.eqb_spec (Z.of_nat (S (length l))) (- (prod pre * prod post))); [nia|].
    cbn [negb]. unfold pad_edge, size. cbn [data].
    destruct (Z.ltb_spec (- (prod pre * prod post) - Z.of_nat (S (length l))) 0);
      [reflexivity | nia].
Qed.

Lemma decode_unknown_dim_value_list_witness :
  make_ndarray_from_tensor
    (tensor_pb2.mk_TensorProto DT_INT32 [-1; 1] [] [] [] [1; 2; 3] [] [])
  = Raise ValueError_pad.
Proof.
  apply (decode_unknown_dim_value_list
           (tensor_pb2.mk_TensorProto DT_INT32 [-1; 1] [] [] [] [1; 2; 3] [] [])
           [Num 1; Num 2; Num 3] [] [1]); try reflexivity.
  simpl. lia.
Defined.

(** X17: in a tensor with raw bytes, one declared dimension of -1 is
    inferred from the payload: when the other dimensions are positive
    and their product divides the number of items, the decoded array has
    the quotient in place of the -1. *)
Theorem decode_raw_bytes_infers_dim
  (tensor : TensorProto) (t : np_type) (n : nat) (pre post : list Z) (k : Z) :
  tensor_pb2.tensor_content tensor <> [] ->
  get_np_dtype (tensor_pb2.dtype tensor) = Ok t ->
  itemsize t = Some n ->
  tensor_pb2.tensor_shape tensor = pre ++ -1 :: post ->
  forallb (fun d => 0 <=? d) pre = true ->
  forallb (fun d => 0 <=? d) post = true ->
  prod pre * prod post <> 0 ->
  Z.of_nat (length (tensor_pb2.tensor_content tensor))
  = Z.of_nat n * (prod pre * prod post * k) ->
  make_ndarray_from_tensor tensor =
    Ok {| dtype := t; shape := pre ++ k :: post;
          data := map (item_of_bytes t)
                      (chunks (length (tensor_pb2.tensor_content tensor)) n
                              (tensor_pb2.tensor_content tensor));
          base := None |}.
Proof.
  intros Hne Ht Hn Hs Hpre Hpost Hp0 Hlen.
  pose proof (itemsize_pos _ _ Hn) as Hpos.
  pose proof (prod_nonneg _ Hpre) as Hp1. pose proof (prod_nonneg _ Hpost) as Hp2.
  set (content := tensor_pb2.tensor_content tensor) in *.
  set (p := prod pre * prod post) in *.
  assert (Hp : 0 < p) by (subst p; nia).
  assert (Hk : 0 <= k) by nia.
  assert (Hl : length content = (n * Z.to_nat (p * k))%nat) by nia.
  unfold make_ndarray_from_tensor. rewrite Ht. cbn [bind]. fold content. rewrite Hs.
  destruct content as [|c cs] eqn:Ec; [congruence|]. rewrite <- Ec in *.
  unfold frombuffer. rewrite Hn, Hlen.
  rewrite Z.mul_comm, Z.mod_mul, Z.eqb_refl by lia. cbn [bind].
  unfold reshape.
  assert (Hsz : size (copy {| dtype := t; shape := [p * k * Z.of_nat n / Z.of_nat n];
                              data := map (item_of_bytes t) (chunks (length content) n content);
                              base := Some content |}) = p * k).
  { unfold size, copy. cbn [data]. rewrite length_map.
    rewrite (length_chunks n (Z.to_nat (p * k))); [lia | exact Hpos | exact Hl | nia]. }
  rewrite Hsz.
  rewrite existsb_app. cbn [existsb]. change (-1 <? -1) with false.
  rewrite (no_negative _ Hpre (-1)), (no_negative _ Hpost (-1)) by lia. cbn [orb].
  rewrite List.filter_app. cbn [List.filter]. change (negb (-1 =? -1)) with false. cbv iota.
  rewrite !filter_known by assumption.
  rewrite !length_app. cbn [length].
  replace (length pre + S (length post) - (length pre + length post))%nat with 1%nat by lia.
  rewrite prod_app. fold p.
  destruct (Z.eqb_spec p 0); [lia|].
  replace ((p * k) mod p) with 0 by (rewrite Z.mul_comm, Z.mod_mul; lia).
  replace ((p * k) / p) with k by (rewrite Z.mul_comm, Z.div_mul; lia).
  cbn [Z.eqb negb orb].
  rewrite map_app. cbn [map]. change (-1 =? -1) with true. cbv iota.
  rewrite !map_known by assumption. reflexivity.
Qed.

Lemma decode_raw_bytes_infers_dim_witness :
  make_ndarray_from_tensor
    (tensor_pb2.mk_TensorProto DT_UINT8 [-1; 1] ["007"; "008"; "009"]%byte [] [] [] [] [])
  = Ok {| dtype := uint8; shape := [3; 1];
          data := map (item_of_bytes uint8)
                      (chunks 3 1 ["007"; "008"; "009"]%byte);
          base := None |}.
Proof.
  apply (decode_raw_bytes_infers_dim
           (tensor_pb2.mk_TensorProto DT_UINT8 [-1; 1] ["007"; "008"; "009"]%byte
              [] [] [] [] []) uint8 1%nat [] [1] 3); try reflexivity; discriminate.
Defined.
